(** * dns-czds-sync: a shallow embedding of [scripts/czds_download_and_sync.py]

    The script downloads zone files, parses their tab-separated lines and
    replaces the rows of one TLD in a PostgreSQL table.  This development
    embeds, in source order,

    - the Python string builtins the script calls ([Py]),
    - [tld_from_url] and [parse_line],
    - the database connection as a state-and-exception monad ([Store]),
    - [ensure_schema], [sync_tld_to_db] and [main],

    and then states the properties of the specification about them.

    Text is [string]: a sequence of characters with code points 0..255.
    Integers are [Z] (Python integers are unbounded). *)

From Stdlib Require Import ZArith String Ascii List Lia Bool.
From stdpp Require Import base strings list gmap.

Local Open Scope string_scope.
Local Open Scope list_scope.

(** ** Exceptions and results *)

(** The exception classes that can reach the code under study. *)
Inductive exn : Type :=
| ValueError          (* int() on malformed text *)
| IndexError          (* list index out of range *)
| StoreError          (* psycopg2.Error raised by a statement or a commit *)
| ClientError         (* anything the CZDS client raises *)
| SystemExit (code : Z).  (* sys.exit(code) *)

Inductive result (A : Type) : Type :=
| Ok (a : A)
| Raise (e : exn).
Arguments Ok {A} a.
Arguments Raise {A} e.

Definition rbind {A B} (r : result A) (k : A -> result B) : result B :=
  match r with
  | Ok a => k a
  | Raise e => Raise e
  end.

(** [try: body except ValueError: handler] *)
Definition try_except_ValueError {A} (body : result A) (handler : result A) : result A :=
  match body with
  | Raise ValueError => handler
  | other => other
  end.

#[global] Instance result_ret : MRet result := fun _ a => Ok a.
#[global] Instance result_bind : MBind result := fun _ _ k r => rbind r k.

(** ** Python string builtins *)
Module Py.

Definition NL : ascii := "010"%char.
Definition TAB : ascii := "009"%char.

Definition code (c : ascii) : nat := nat_of_ascii c.

Definition between (lo hi n : nat) : bool := Nat.leb lo n && Nat.leb n hi.

(** [str.isspace] on one character, for code points below 256:
    TAB..CR, FS..US, the space, NEL and the no-break space. *)
Definition isspace (c : ascii) : bool :=
  between 9 13 (code c) || between 28 32 (code c)
  || Nat.eqb (code c) 133 || Nat.eqb (code c) 160.

(** The blanks that [int] skips around a number: the ASCII ones, and the
    non-ASCII spaces, which it first turns into the ASCII space. *)
Definition int_space (c : ascii) : bool :=
  between 9 13 (code c) || Nat.eqb (code c) 32
  || Nat.eqb (code c) 133 || Nat.eqb (code c) 160.

Definition isdigit (c : ascii) : bool := between 48 57 (code c).

Definition digit_value (c : ascii) : Z := Z.of_nat (code c - 48).

Definition is_empty (s : string) : bool :=
  match s with
  | EmptyString => true
  | String _ _ => false
  end.

(** [s.rstrip(chars)], the characters to drop given as a predicate. *)
Fixpoint rstrip (drop : ascii -> bool) (s : string) : string :=
  match s with
  | EmptyString => EmptyString
  | String c r =>
      match rstrip drop r with
      | EmptyString => if drop c then EmptyString else String c EmptyString
      | r' => String c r'
      end
  end.

Fixpoint lstrip (drop : ascii -> bool) (s : string) : string :=
  match s with
  | EmptyString => EmptyString
  | String c r => if drop c then lstrip drop r else s
  end.

(** [s.strip()] *)
Definition strip (s : string) : string := lstrip isspace (rstrip isspace s).

(** [s.split(sep)] for a one-character separator. *)
Fixpoint split (sep : ascii) (s : string) : list string :=
  match s with
  | EmptyString => [EmptyString]
  | String c r =>
      if Ascii.eqb c sep then EmptyString :: split sep r
      else match split sep r with
           | h :: t => String c h :: t
           | [] => [String c EmptyString]
           end
  end.

(** [sep.join(l)] *)
Fixpoint join (sep : string) (l : list string) : string :=
  match l with
  | [] => EmptyString
  | x :: t =>
      match t with
      | [] => x
      | _ :: _ => x +:+ sep +:+ join sep t
      end
  end.

(** [s.startswith(p)] *)
Definition startswith (p s : string) : bool := String.prefix p s.

(** [s.endswith(p)]: some tail of [s] is [p]. *)
Fixpoint endswith (p s : string) : bool :=
  String.eqb s p ||
  match s with
  | EmptyString => false
  | String _ r => endswith p r
  end.

(** [s.replace(old, new)]: every occurrence of [old], found left to right
    without overlap, becomes [new].  [skip] counts the characters of a
    match that are still to be passed over. *)
Fixpoint replace_from (old new : string) (skip : nat) (s : string) : string :=
  match s with
  | EmptyString => EmptyString
  | String c r =>
      match skip with
      | S k => replace_from old new k r
      | O =>
          if String.prefix old s
          then new +:+ replace_from old new (String.length old - 1) r
          else String c (replace_from old new 0 r)
      end
  end.

Fixpoint intersperse (new s : string) : string :=
  match s with
  | EmptyString => EmptyString
  | String c r => String c (new +:+ intersperse new r)
  end.

Definition replace (old new s : string) : string :=
  match old with
  | EmptyString => new +:+ intersperse new s
  | String _ _ => replace_from old new 0 s
  end.

(** [s.lower()] on one character: A..Z and the upper-case letters of
    Latin-1 (all of 192..222 but the multiplication sign). *)
Definition lower_char (c : ascii) : ascii :=
  if between 65 90 (code c)
     || (between 192 222 (code c) && negb (Nat.eqb (code c) 215))
  then ascii_of_nat (code c + 32)
  else c.

Fixpoint lower (s : string) : string :=
  match s with
  | EmptyString => EmptyString
  | String c r => String (lower_char c) (lower r)
  end.

(** [l[i]] for [i >= 0]. *)
Definition index {A} (l : list A) (i : nat) : result A :=
  match nth_error l i with
  | Some x => Ok x
  | None => Raise IndexError
  end.

(** [l[:n]] for any integer [n]: a negative bound counts from the end. *)
Definition slice_to {A} (l : list A) (n : Z) : list A :=
  if (0 <=? n)%Z then firstn (Z.to_nat n) l
  else firstn (length l - Z.to_nat (- n)) l.

(** The digits of a decimal literal: one underscore may stand between two
    digits.  [after_digit] tells whether the last character read was a
    digit. *)
Fixpoint digits (acc : Z) (after_digit : bool) (s : string) : option Z :=
  match s with
  | EmptyString => if after_digit then Some acc else None
  | String c r =>
      if isdigit c then digits (10 * acc + digit_value c) true r
      else if Ascii.eqb c "_" && after_digit then digits acc false r
      else None
  end.

Definition signed_digits (s : string) : option Z :=
  match s with
  | String "+" r => digits 0 false r
  | String "-" r => option_map Z.opp (digits 0 false r)
  | _ => digits 0 false s
  end.

(** [int(s)] in base 10.  The interpreter's limit on the length of the
    literal (a [ValueError] past 4300 digits unless configured otherwise)
    is left out. *)
Definition int (s : string) : result Z :=
  match signed_digits (lstrip int_space (rstrip int_space s)) with
  | Some z => Ok z
  | None => Raise ValueError
  end.

(** [x or None] on text. *)
Definition or_none (s : string) : option string :=
  if is_empty s then None else Some s.

End Py.

(** ** Key of a download URL *)

(** [tld_from_url]: [split] never returns the empty list, so [[-1]] is its
    last element. *)
Definition tld_from_url (url : string) : string :=
  let base := List.last (Py.split "/" (Py.rstrip (Ascii.eqb "/") url)) EmptyString in
  if Py.endswith ".zone" base then Py.replace ".zone" "" base else base.

(** ** The line parser *)

(** The tuple [(owner, ttl, class, type, rdata)] that [parse_line] returns. *)
Record zone_row : Type := ZoneRow {
  owner : string;
  ttl : option Z;
  cls : option string;
  rtype : option string;
  rdata : option string
}.

Definition parse_line (line : string) : result (option zone_row) :=
  let line := Py.rstrip (Ascii.eqb Py.NL) line in
  if Py.is_empty line || Py.startswith ";" line || Py.startswith "$" line
  then Ok None
  else
    let parts := Py.split Py.TAB line in
    if Nat.ltb (length parts) 4 then Ok None
    else
      owner ← Py.index parts 0;
      ttl_str ← Py.index parts 1;
      cls ← Py.index parts 2;
      rtype ← Py.index parts 3;
      let rdata :=
        if Nat.ltb 4 (length parts)
        then Py.strip (Py.join (String Py.TAB EmptyString) (skipn 4 parts))
        else EmptyString in
      ttl ← try_except_ValueError
               (if Py.is_empty ttl_str then Ok None
                else n ← Py.int ttl_str; Ok (Some n))
               (Ok None);
      Ok (Some (ZoneRow owner ttl (Py.or_none cls) (Py.or_none rtype)
                        (Py.or_none rdata))).

(** [stream_zone_lines]: what the generator hands to its consumer, in
    order.  The file is the list of its lines, as iterating over the open
    file gives them.  A row is yielded when [parse_line] returns one (a
    5-tuple is always true); an exception inside the generator reaches the
    consumer when it asks for the next row, and ends the stream.  Opening
    the file, decompressing it and decoding it can raise in the source;
    they are outside this model, which starts from the lines read. *)
Definition zone_file : Type := list string.

Fixpoint stream_zone_lines (path : zone_file) : list (result zone_row) :=
  match path with
  | [] => []
  | line :: rest =>
      match parse_line line with
      | Ok (Some row) => Ok row :: stream_zone_lines rest
      | Ok None => stream_zone_lines rest
      | Raise e => [Raise e]
      end
  end.

(** ** The database *)
Module Store.

(** A row of table [records], in the columns the script writes:
    [(tld, owner, ttl, class, type, rdata)].  The columns [id] and
    [synced_at] are filled by the table's defaults. *)
Record record_row : Type := RecordRow {
  row_tld : string;
  row_owner : string;
  row_ttl : option Z;
  row_class : option string;
  row_type : option string;
  row_rdata : option string
}.

(** Table [records], and table [zones] as the map from its unique [tld]
    to [synced_at]. *)
Record tables : Type := Tables {
  records : list record_row;
  zones : gmap string nat
}.

(** What the run does that can be observed: statements that succeeded and
    lines printed. *)
Inductive event : Type :=
| SchemaStatement
| DeleteRecords (tld : string)
| InsertRecords (rows : list record_row)
| UpsertZone (tld : string)
| Commit
| Progress (i n : nat) (tld : string)     (* "[i/n] tld ..." *)
| DownloadError                           (* "  Download error: ..." *)
| Synced (n : nat)                        (* "  -> n records" *)
| Printed (msg : string)
| Stderr (msg : string).

(** The database server with the one connection the script holds at a
    time.  [committed] is what the server keeps; [view] is what the open
    transaction sees and has changed.  [faults = Some k] makes the store
    operation number [k], counted from the next one, raise; [None] is a
    server that never fails. *)
Record db : Type := Db {
  committed : tables;
  view : tables;
  faults : option nat;
  clock : nat;
  trace : list event
}.

(** Computations on the store that may raise. *)
Definition M (A : Type) : Type := db -> result A * db.

#[global] Instance M_ret : MRet M := fun _ a d => (Ok a, d).
#[global] Instance M_bind : MBind M := fun _ _ k m d =>
  match m d with
  | (Ok a, d') => k a d'
  | (Raise e, d') => (Raise e, d')
  end.

Definition lift {A} (r : result A) : M A := fun d => (r, d).

Definition raise {A} (e : exn) : M A := lift (Raise e).

Definition emit (ev : event) : M unit := fun d =>
  (Ok tt, Db (committed d) (view d) (faults d) (clock d) (trace d ++ [ev])).

(** [try: body finally: fin] *)
Definition try_finally {A} (body : M A) (fin : M unit) : M A := fun d =>
  match body d with
  | (Ok a, d') =>
      match fin d' with
      | (Ok _, d'') => (Ok a, d'')
      | (Raise e, d'') => (Raise e, d'')
      end
  | (Raise e, d') =>
      match fin d' with
      | (Ok _, d'') => (Raise e, d'')
      | (Raise e', d'') => (Raise e', d'')
      end
  end.

(** One operation on the server: it raises if the fault is due, else it
    changes the transaction's view and is recorded. *)
Definition operation (ev : event) (change : db -> tables) : M unit := fun d =>
  match faults d with
  | Some O => (Raise StoreError, Db (committed d) (view d) None (clock d) (trace d))
  | f => (Ok tt, Db (committed d) (change d) (Nat.pred <$> f) (S (clock d))
                    (trace d ++ [ev]))
  end.

Definition has_tld (tld : string) (r : record_row) : bool :=
  String.eqb (row_tld r) tld.

(** [cur.execute("DELETE FROM records WHERE tld = %s", (tld,))], giving
    [cur.rowcount]. *)
Definition execute_delete (tld : string) : M nat := fun d =>
  let rowcount := length (List.filter (has_tld tld) (records (view d))) in
  match operation (DeleteRecords tld)
          (fun d => Tables (List.filter (fun r => negb (has_tld tld r))
                                        (records (view d)))
                           (zones (view d))) d with
  | (Ok _, d') => (Ok rowcount, d')
  | (Raise e, d') => (Raise e, d')
  end.

(** [execute_values(cur, "INSERT INTO records (...) VALUES %s", batch,
    page_size=...)]: the rows of [batch] are appended to the table.  The
    script never hands over more rows than [batch_size], so for a batch
    size of at least 1 the call is one statement; [page_size] itself, and
    what the library does with one that is not positive, are outside the
    model. *)
Definition execute_values (batch : list record_row) : M unit :=
  operation (InsertRecords batch)
    (fun d => Tables (records (view d) ++ batch) (zones (view d))).

(** [INSERT INTO zones (tld, synced_at) VALUES (%s, NOW())
     ON CONFLICT (tld) DO UPDATE SET synced_at = NOW()] *)
Definition execute_upsert (tld : string) : M unit :=
  operation (UpsertZone tld)
    (fun d => Tables (records (view d)) (<[tld := clock d]> (zones (view d)))).

(** A [CREATE ... IF NOT EXISTS] statement: the tables of the model always
    exist, so it changes nothing. *)
Definition execute_ddl : M unit := operation SchemaStatement view.

(** [conn.commit()] *)
Definition commit : M unit := fun d =>
  match operation Commit view d with
  | (Ok _, d') => (Ok tt, Db (view d') (view d') (faults d') (clock d') (trace d'))
  | (Raise e, d') => (Raise e, d')
  end.

(** [psycopg2.connect(database_url)]: a new transaction on what is
    committed. *)
Definition connect : M unit := fun d =>
  (Ok tt, Db (committed d) (committed d) (faults d) (clock d) (trace d)).

(** [conn.close()]: what was not committed is lost. *)
Definition close : M unit := connect.

End Store.
Import Store.

(** ** Schema, sync and the run *)

Definition ensure_schema : M unit :=
  _ ← execute_ddl;
  _ ← execute_ddl;
  _ ← execute_ddl;
  commit.

(** The loop [for row in stream_zone_lines(path)] of [sync_tld_to_db],
    with its two variables [batch] and [inserted]. *)
Fixpoint insert_rows (tld : string) (batch_size : Z)
    (rows : list (result zone_row)) (batch : list record_row) (inserted : nat)
    : M (list record_row * nat) :=
  match rows with
  | [] => mret (batch, inserted)
  | Raise e :: _ => raise e
  | Ok row :: rest =>
      let batch := batch ++ [RecordRow tld (owner row) (ttl row) (cls row)
                                       (rtype row) (rdata row)] in
      if (batch_size <=? Z.of_nat (length batch))%Z then
        _ ← execute_values batch;
        insert_rows tld batch_size rest [] (inserted + length batch)
      else insert_rows tld batch_size rest batch inserted
  end.

Definition sync_tld_to_db (tld : string) (path : zone_file) (batch_size : Z) : M nat :=
  deleted ← execute_delete tld;
  _ ← commit;
  '(batch, inserted) ← insert_rows tld batch_size (stream_zone_lines path) [] 0;
  inserted ← match batch with
             | [] => mret inserted
             | _ :: _ => _ ← execute_values batch; mret (inserted + length batch)
             end;
  _ ← commit;
  _ ← execute_upsert tld;
  _ ← commit;
  mret inserted.

(** The process environment ([os.environ]) and the CZDS client: the list of
    approved URLs, and for a URL the file that the download leaves in the
    work directory ([None]: no [.gz], [.zone] or [.txt] file there). *)
Record environ : Type := Environ {
  CZDS_USERNAME : option string;
  CZDS_PASSWORD : option string;
  DATABASE_URL : option string;
  MAX_TLDS : option string;
  BATCH_SIZE : option string;
  TLD_WHITELIST : option string
}.

Record CZDSClient : Type := Client {
  get_zonefiles_list : result (list string);
  get_zonefile : string -> result (option zone_file)
}.

(** [not os.environ.get(name)] *)
Definition unset (v : option string) : bool :=
  match v with
  | None => true
  | Some s => Py.is_empty s
  end.

Definition get_client (env : environ) (account : CZDSClient) : M CZDSClient :=
  if unset (CZDS_USERNAME env) || unset (CZDS_PASSWORD env) then
    _ ← emit (Stderr "Missing CZDS_USERNAME or CZDS_PASSWORD");
    raise (SystemExit 1)
  else mret account.

(** [except Exception] lets [SystemExit] through. *)
Definition download_zone (client : CZDSClient) (url : string) : M (option zone_file) :=
  match get_zonefile client url with
  | Ok found => mret found
  | Raise (SystemExit code) => raise (SystemExit code)
  | Raise _ => _ ← emit DownloadError; mret None
  end.

(** [tld_whitelist], lines 173 and 174 of [main]. *)
Definition tld_whitelist (env : environ) : option (list string) :=
  let tld_whitelist_env := Py.strip (default "" (TLD_WHITELIST env)) in
  if Py.is_empty tld_whitelist_env then None
  else Some (map (fun s => Py.lower (Py.strip s))
                 (List.filter (fun s => negb (Py.is_empty (Py.strip s)))
                              (Py.split "," tld_whitelist_env))).

(** [x in l] on a list of texts. *)
Definition among (x : string) (l : list string) : bool :=
  existsb (String.eqb x) l.

(** [url_tlds], lines 183 to 187 of [main]: a whitelist is true when it
    is a list that is not empty. *)
Definition select_url_tlds (whitelist : option (list string)) (max_tlds : Z)
    (urls : list string) : list (string * string) :=
  let url_tlds := map (fun u => (u, tld_from_url u)) urls in
  match whitelist with
  | Some (entry :: entries) =>
      List.filter (fun ut => among (Py.lower (snd ut)) (entry :: entries)) url_tlds
  | _ => Py.slice_to url_tlds max_tlds
  end.

(** The body of the loop of [main], lines 202 to 213, for the pair
    [(url, tld)] at position [i]: a failed download goes on to the next
    pair ([continue]).  Making the directory of the key ([mkdir]) belongs
    to the file system and is outside the model. *)
Definition sync_one (client : CZDSClient) (batch_size : Z) (total i : nat)
    (url tld : string) : M unit :=
  _ ← emit (Progress i total tld);
  path ← download_zone client url;
  match path with
  | None => mret tt
  | Some path =>
      _ ← connect;
      try_finally (n ← sync_tld_to_db tld path batch_size;
                   emit (Synced n))
                  close
  end.

(** The loop of [main] over the selection, line 201. *)
Fixpoint sync_all (client : CZDSClient) (batch_size : Z) (total i : nat)
    (url_tlds : list (string * string)) : M unit :=
  match url_tlds with
  | [] => mret tt
  | (url, tld) :: rest =>
      _ ← sync_one client batch_size total i url tld;
      sync_all client batch_size total (S i) rest
  end.

Definition main (env : environ) (account : CZDSClient) : M unit :=
  if unset (DATABASE_URL env) then
    _ ← emit (Stderr "Missing DATABASE_URL");
    raise (SystemExit 1)
  else
    max_tlds ← lift (Py.int (default "10" (MAX_TLDS env)));
    batch_size ← lift (Py.int (default "5000" (BATCH_SIZE env)));
    client ← get_client env account;
    urls ← lift (get_zonefiles_list client);
    match urls with
    | [] => emit (Printed "No zone files approved for this account.")
    | _ :: _ =>
        match select_url_tlds (tld_whitelist env) max_tlds urls with
        | [] => emit (Printed "No TLDs to process.")
        | url_tlds =>
            _ ← connect;
            _ ← try_finally ensure_schema close;
            _ ← sync_all client batch_size (length url_tlds) 1 url_tlds;
            emit (Printed "Done.")
        end
    end.

(** The status the process ends with: 0 when [main] returns, the code of
    [sys.exit], and 1 for an exception nobody caught. *)
Definition exit_status (r : result unit) : Z :=
  match r with
  | Ok _ => 0
  | Raise (SystemExit code) => code
  | Raise _ => 1
  end.

(** ** Vocabulary of the statements *)

(** The one-character text of a tab, and a line written field by field. *)
Definition tab : string := String Py.TAB EmptyString.

Definition tabbed (fields : list string) : string := Py.join tab fields.

Definition newline : string := String Py.NL EmptyString.

(** [s.count(c)] for one character. *)
Fixpoint count (c : ascii) (s : string) : nat :=
  match s with
  | EmptyString => 0
  | String a r => (if Ascii.eqb a c then 1 else 0) + count c r
  end.

(** The tab-separated fields of a line, its trailing newlines removed. *)
Definition fields (line : string) : list string :=
  Py.split Py.TAB (Py.rstrip (Ascii.eqb Py.NL) line).

Definition field (i : nat) (line : string) : string :=
  nth i (fields line) EmptyString.

(** Whether [parse_line] gives up on a line before it reads the fields. *)
Definition skipped (line : string) : bool :=
  Py.is_empty (Py.rstrip (Ascii.eqb Py.NL) line)
  || Py.startswith ";" line || Py.startswith "$" line
  || Nat.ltb (length (fields line)) 4.

(** A text coerced to an integer, or to no value. *)
Definition integer_or_absent (s : string) : option Z :=
  match Py.int s with
  | Ok z => Some z
  | Raise _ => None
  end.

(** The record of a line that is not skipped, field by field. *)
Definition record_of_line (line : string) : zone_row :=
  {| owner := nth 0 (fields line) EmptyString;
     ttl := integer_or_absent (nth 1 (fields line) EmptyString);
     cls := Py.or_none (nth 2 (fields line) EmptyString);
     rtype := Py.or_none (nth 3 (fields line) EmptyString);
     rdata := Py.or_none (Py.strip (tabbed (skipn 4 (fields line)))) |}.

(** The rows a file parses to. *)
Definition parsed_rows (path : zone_file) : list zone_row :=
  omap (fun line => match parse_line line with
                    | Ok (Some row) => Some row
                    | _ => None
                    end) path.

(** The row of table [records] made of a key and a parsed row. *)
Definition stored (tld : string) (row : zone_row) : record_row :=
  RecordRow tld (owner row) (ttl row) (cls row) (rtype row) (rdata row).

(** The rows of one key in a table, and the number of bulk inserts in a
    trace. *)
Definition records_of (tld : string) (t : tables) : list record_row :=
  List.filter (has_tld tld) (records t).

Definition is_bulk_insert (ev : event) : bool :=
  match ev with
  | InsertRecords _ => true
  | _ => false
  end.

Definition bulk_inserts (tr : list event) : nat :=
  length (List.filter is_bulk_insert tr).

(** The number of rows that the bulk inserts of a trace carry. *)
Fixpoint rows_inserted (tr : list event) : nat :=
  match tr with
  | [] => 0
  | InsertRecords rows :: rest => length rows + rows_inserted rest
  | _ :: rest => rows_inserted rest
  end.

(** The batches that the loop of [sync_tld_to_db] hands to the server when
    no statement fails, and the batch it is left with. *)
Fixpoint flushed (tld : string) (batch_size : Z) (rows : list zone_row)
    (batch : list record_row) : list (list record_row) * list record_row :=
  match rows with
  | [] => ([], batch)
  | row :: rest =>
      let batch := batch ++ [stored tld row] in
      if (batch_size <=? Z.of_nat (length batch))%Z then
        (batch :: fst (flushed tld batch_size rest []),
         snd (flushed tld batch_size rest []))
      else flushed tld batch_size rest batch
  end.

(** All the batches of one sync: the last one is sent only if it has
    rows. *)
Definition batches (tld : string) (batch_size : Z) (rows : list zone_row)
    : list (list record_row) :=
  fst (flushed tld batch_size rows []) ++
  match snd (flushed tld batch_size rows []) with
  | [] => []
  | b => [b]
  end.

(** The state a sync leaves when no statement fails. *)
Definition synced (tld : string) (batch_size : Z) (rows : list zone_row) (d : db) : db :=
  let kept := List.filter (fun r => negb (has_tld tld r)) (records (view d)) in
  let sent := batches tld batch_size rows in
  let final := Tables (kept ++ concat sent)
                      (<[tld := clock d + length sent + 3]> (zones (view d))) in
  Db final final None (clock d + length sent + 5)
     (trace d ++ [DeleteRecords tld; Commit] ++ map InsertRecords sent
              ++ [Commit; UpsertZone tld; Commit]).

(** The keys the run announced, in order. *)
Definition attempted (tr : list event) : list string :=
  omap (fun ev => match ev with
                  | Progress _ _ tld => Some tld
                  | _ => None
                  end) tr.

(** A computation that announces no key, whatever its outcome. *)
Definition quiet {A} (m : M A) : Prop :=
  forall d r d', m d = (r, d') -> attempted (trace d') = attempted (trace d).

(** A computation that can raise nothing but [StoreError]. *)
Definition store_errors_only {A} (m : M A) : Prop :=
  forall d e d', m d = (Raise e, d') -> e = StoreError.

(** A server with empty tables that fails as [f] says. *)
Definition empty_db (f : option nat) : db :=
  Db (Tables [] ∅) (Tables [] ∅) f 0 [].

(** A run to try the statements on: three approved zones, each file
    with one record and one comment, batches of one row. *)
Definition scenario_env : environ :=
  Environ (Some "user") (Some "secret") (Some "postgresql://db/czds")
          None (Some "1") None.

Definition scenario_urls : list string :=
  ["https://czds.example/downloads/test.zone";
   "https://czds.example/downloads/b.zone";
   "https://czds.example/downloads/c.zone"].

Definition scenario_file : zone_file :=
  [tabbed ["a"; "3600"; "IN"; "A"; "1.1.1.1"] +:+ newline; ";comment"].

Definition scenario_account : CZDSClient :=
  Client (Ok scenario_urls) (fun _ => Ok (Some scenario_file)).

(** The numbers of rows of the bulk inserts of a trace, in order. *)
Definition insert_sizes (tr : list event) : list nat :=
  omap (fun ev => match ev with
                  | InsertRecords rows => Some (length rows)
                  | _ => None
                  end) tr.

(** The rows of a table that do not belong to a key: what
    [DELETE FROM records WHERE tld = %s] leaves. *)
Definition without_tld (tld : string) (l : list record_row) : list record_row :=
  List.filter (fun r => negb (has_tld tld r)) l.

(** * Properties *)

(** ** Text *)

Lemma split_not_nil sep s : Py.split sep s <> [].
Proof.
  destruct s as [|c r]; simpl; [discriminate|].
  destruct (Ascii.eqb c sep); [discriminate|].
  destruct (Py.split sep r); discriminate.
Qed.

Lemma length_split sep s : length (Py.split sep s) = S (count sep s).
Proof.
  induction s as [|c r IH]; simpl; [reflexivity|].
  destruct (Ascii.eqb c sep); simpl; [now rewrite IH|].
  destruct (Py.split sep r) eqn:E; simpl in *; [discriminate|exact IH].
Qed.

Lemma count_rstrip drop c s :
  drop c = false -> count c (Py.rstrip drop s) = count c s.
Proof.
  intros Hc. induction s as [|a r IH]; simpl; [reflexivity|].
  destruct (Py.rstrip drop r) eqn:E.
  - simpl in IH. rewrite <- IH.
    destruct (drop a) eqn:Ha; simpl; [|lia].
    destruct (Ascii.eqb_spec a c) as [->|]; [congruence|reflexivity].
  - change (count c (String a (String a0 s)))
      with ((if Ascii.eqb a c then 1 else 0) + count c (String a0 s)).
    now rewrite IH.
Qed.

Lemma length_fields line :
  length (fields line) = length (Py.split Py.TAB line).
Proof.
  unfold fields. rewrite !length_split. f_equal.
  now apply count_rstrip.
Qed.

Lemma startswith_rstrip drop p s :
  drop p = false ->
  Py.startswith (String p EmptyString) (Py.rstrip drop s)
  = Py.startswith (String p EmptyString) s.
Proof.
  intros Hp. destruct s as [|a r]; [reflexivity|].
  unfold Py.startswith. simpl.
  destruct (ascii_dec p a) as [->|Hne].
  - rewrite Hp.
    assert (Hnil : String.prefix EmptyString r = true) by (now destruct r).
    rewrite Hnil.
    destruct (Py.rstrip drop r) as [|b r']; simpl;
      destruct (ascii_dec a a); try congruence; now destruct r'.
  - destruct (Py.rstrip drop r); [destruct (drop a)|]; simpl; trivial;
      destruct (ascii_dec p a); congruence.
Qed.

Lemma int_raises_ValueError s e : Py.int s = Raise e -> e = ValueError.
Proof.
  unfold Py.int. destruct (Py.signed_digits _); congruence.
Qed.

(** The builtins on the inputs where they are easy to get wrong. *)
Example split_forms :
  Py.split "/" "" = [""] /\
  Py.split "/" "a//b" = ["a"; ""; "b"] /\
  Py.split "," " , " = [" "; " "] /\
  Py.rstrip (Ascii.eqb "/") "a/b//" = "a/b" /\
  Py.rstrip (Ascii.eqb Py.NL) ("a" +:+ newline +:+ newline) = "a".
Proof. repeat split. Qed.

Example strip_forms :
  Py.strip (" x" +:+ tab +:+ "y ") = "x" +:+ tab +:+ "y" /\
  Py.strip (tab +:+ newline +:+ " ") = "" /\
  Py.strip "" = "".
Proof. repeat split. Qed.

Example replace_forms :
  Py.replace ".zone" "" "my.zone.zone" = "my" /\
  Py.replace "aa" "b" "aaa" = "ba" /\
  Py.replace "" "-" "abc" = "-a-b-c-" /\
  Py.endswith ".zone" "zone" = false /\
  Py.endswith ".zone" "a.zone" = true.
Proof. repeat split. Qed.

Example lower_forms :
  Py.lower "Com.ZONE-9" = "com.zone-9".
Proof. reflexivity. Qed.

Example slice_forms :
  Py.slice_to [1; 2; 3] 2 = [1; 2] /\
  Py.slice_to [1; 2; 3] 5 = [1; 2; 3] /\
  Py.slice_to [1; 2; 3] 0 = [] /\
  Py.slice_to [1; 2; 3] (-1) = [1; 2] /\
  Py.slice_to [1; 2; 3] (-5) = [].
Proof. repeat split. Qed.

(** ** [parse_line] *)

(** What [parse_line] returns, field by field. *)
Lemma parse_line_fields line :
  parse_line line =
  if skipped line then Ok None
  else Ok (Some {| owner := field 0 line;
                   ttl := integer_or_absent (field 1 line);
                   cls := Py.or_none (field 2 line);
                   rtype := Py.or_none (field 3 line);
                   rdata := Py.or_none (Py.strip (tabbed (skipn 4 (fields line)))) |}).
Proof.
  unfold parse_line, skipped, field, fields.
  rewrite <- (startswith_rstrip (Ascii.eqb Py.NL) ";" line) by reflexivity.
  rewrite <- (startswith_rstrip (Ascii.eqb Py.NL) "$" line) by reflexivity.
  set (l := Py.rstrip (Ascii.eqb Py.NL) line).
  destruct (Py.is_empty l || Py.startswith ";" l || Py.startswith "$" l);
    [reflexivity|].
  simpl orb.
  destruct (Py.split Py.TAB l) as [|f0 [|f1 [|f2 [|f3 rest]]]]; try reflexivity.
  change (Nat.ltb (length (f0 :: f1 :: f2 :: f3 :: rest)) 4) with false.
  cbv iota. cbn [Py.index nth_error nth mbind result_bind rbind skipn].
  change (skipn 0 rest) with rest.
  assert (Hrdata :
    (if Nat.ltb 4 (length (f0 :: f1 :: f2 :: f3 :: rest))
     then Py.strip (Py.join (String Py.TAB EmptyString) rest) else EmptyString)
    = Py.strip (tabbed rest)).
  { destruct rest; reflexivity. }
  rewrite Hrdata. clear Hrdata.
  unfold integer_or_absent.
  destruct f1 as [|c r]; [reflexivity|].
  cbn [Py.is_empty].
  destruct (Py.int (String c r)) as [z|e] eqn:E; cbn.
  - reflexivity.
  - now rewrite (int_raises_ValueError _ _ E).
Qed.

Lemma fields_of_empty line :
  Py.rstrip (Ascii.eqb Py.NL) line = EmptyString -> length (fields line) = 1.
Proof. unfold fields. now intros ->. Qed.

Lemma not_skipped line :
  Py.startswith ";" line = false -> Py.startswith "$" line = false ->
  4 <= length (fields line) -> skipped line = false.
Proof.
  intros H1 H2 H4. unfold skipped. rewrite H1, H2.
  destruct (Py.rstrip (Ascii.eqb Py.NL) line) eqn:E.
  - apply fields_of_empty in E. lia.
  - simpl. now apply Nat.ltb_ge.
Qed.

Lemma parse_line_not_skipped line :
  skipped line = false ->
  parse_line line =
  Ok (Some {| owner := field 0 line;
              ttl := integer_or_absent (field 1 line);
              cls := Py.or_none (field 2 line);
              rtype := Py.or_none (field 3 line);
              rdata := Py.or_none (Py.strip (tabbed (skipn 4 (fields line)))) |}).
Proof. intros H. now rewrite parse_line_fields, H. Qed.

Example parse_line_two_fields : parse_line (tabbed ["a"; "b"]) = Ok None.
Proof. reflexivity. Qed.

Example parse_line_five_fields :
  parse_line (tabbed ["a"; "1"; "IN"; "A"; "1.2.3.4"])
  = Ok (Some (ZoneRow "a" (Some 1%Z) (Some "IN") (Some "A") (Some "1.2.3.4"))).
Proof. reflexivity. Qed.

Example parse_line_rdata_with_tabs :
  parse_line (tabbed ["a"; ""; "IN"; "TXT"; " x"; "y "] +:+ newline)
  = Ok (Some (ZoneRow "a" None (Some "IN") (Some "TXT") (Some ("x" +:+ tab +:+ "y")))).
Proof. reflexivity. Qed.

Example int_forms :
  Py.int "007" = Ok 7%Z /\ Py.int " -42 " = Ok (-42)%Z /\
  Py.int "+1_000" = Ok 1000%Z /\ Py.int "1__0" = Raise ValueError /\
  Py.int "- 1" = Raise ValueError /\ Py.int "1.5" = Raise ValueError /\
  Py.int "" = Raise ValueError.
Proof. repeat split. Qed.

(** C7: a line that is empty once its trailing newlines are removed, a
    line whose first character is [;] or [$], and a line with fewer than
    four tab-separated fields all give no record. *)
Theorem parse_line_skips line :
  Py.rstrip (Ascii.eqb Py.NL) line = EmptyString \/
  Py.startswith ";" line = true \/
  Py.startswith "$" line = true \/
  length (Py.split Py.TAB line) < 4 ->
  parse_line line = Ok None.
Proof.
  intros H. rewrite parse_line_fields.
  assert (Hs : skipped line = true); [|now rewrite Hs].
  unfold skipped. rewrite length_fields.
  destruct H as [H|[H|[H|H]]].
  - now rewrite H.
  - rewrite H. now rewrite orb_true_r.
  - rewrite H. now rewrite orb_true_r.
  - apply Nat.ltb_lt in H. rewrite H. now rewrite orb_true_r.
Qed.

Lemma parse_line_skips_witness :
  parse_line (newline +:+ newline) = Ok None /\
  parse_line "; a comment" = Ok None /\
  parse_line "$ORIGIN com." = Ok None /\
  parse_line (tabbed ["a"; "3600"; "IN"]) = Ok None.
Proof.
  split; [|split; [|split]]; apply parse_line_skips.
  - left. reflexivity.
  - right. left. reflexivity.
  - right. right. left. reflexivity.
  - right. right. right. vm_compute. lia.
Defined.

(** C3, as the code has it: a line that does not begin with [;] or [$]
    and has at least four tab-separated fields (its trailing newlines
    removed) gives a record.  Its owner is field 0; its class and type are
    fields 2 and 3, an empty field giving no value; its TTL is field 1 as
    an integer, or no value; its payload is the remaining fields joined by
    tabs and trimmed, or no value when that is empty. *)
Theorem parse_line_record line :
  Py.startswith ";" line = false ->
  Py.startswith "$" line = false ->
  4 <= length (fields line) ->
  parse_line line =
  Ok (Some {| owner := field 0 line;
              ttl := integer_or_absent (field 1 line);
              cls := Py.or_none (field 2 line);
              rtype := Py.or_none (field 3 line);
              rdata := Py.or_none (Py.strip (tabbed (skipn 4 (fields line)))) |}).
Proof.
  intros H1 H2 H4. apply parse_line_not_skipped. now apply not_skipped.
Qed.

Lemma parse_line_record_witness :
  parse_line (tabbed ["a"; "3600"; "IN"; "A"; "1.1.1.1"] +:+ newline)
  = Ok (Some (ZoneRow "a" (Some 3600%Z) (Some "IN") (Some "A") (Some "1.1.1.1"))).
Proof.
  apply (parse_line_record (tabbed ["a"; "3600"; "IN"; "A"; "1.1.1.1"] +:+ newline)).
  - reflexivity.
  - reflexivity.
  - vm_compute. lia.
Defined.

(** C3 as it is written fails: a comment line with four fields gives no
    record, and an empty class field is not kept as an empty text. *)
Lemma parse_line_record_counterexample :
  (4 <= length (fields (tabbed [";a"; "3600"; "IN"; "A"])) /\
   parse_line (tabbed [";a"; "3600"; "IN"; "A"]) = Ok None) /\
  (4 <= length (fields (tabbed ["a"; "3600"; ""; "A"])) /\
   exists row, parse_line (tabbed ["a"; "3600"; ""; "A"]) = Ok (Some row) /\
               cls row <> Some (field 2 (tabbed ["a"; "3600"; ""; "A"]))).
Proof.
  split; split.
  - vm_compute. lia.
  - reflexivity.
  - vm_compute. lia.
  - eexists. split; [reflexivity|]. discriminate.
Qed.

(** C4: [parse_line] returns for every line, a record or none, and never
    raises.  Where a record is due and the TTL field is empty or is not
    an integer, the record has no TTL. *)
Theorem parse_line_never_raises :
  (forall line, exists outcome, parse_line line = Ok outcome) /\
  (forall line,
     Py.startswith ";" line = false ->
     Py.startswith "$" line = false ->
     4 <= length (fields line) ->
     field 1 line = EmptyString \/ (exists e, Py.int (field 1 line) = Raise e) ->
     exists row, parse_line line = Ok (Some row) /\ ttl row = None).
Proof.
  split.
  - intros line. rewrite parse_line_fields. destruct (skipped line); eauto.
  - intros line H1 H2 H4 Httl.
    rewrite parse_line_not_skipped by now apply not_skipped.
    eexists. split; [reflexivity|]. simpl. unfold integer_or_absent.
    destruct Httl as [->|[e ->]]; reflexivity.
Qed.

Lemma parse_line_never_raises_witness :
  (exists outcome, parse_line "anything at all" = Ok outcome) /\
  (exists row, parse_line (tabbed ["a"; "1h"; "IN"; "A"]) = Ok (Some row)
               /\ ttl row = None) /\
  (exists row, parse_line (tabbed ["a"; ""; "IN"; "A"]) = Ok (Some row)
               /\ ttl row = None).
Proof.
  split; [|split].
  - apply (proj1 parse_line_never_raises).
  - apply (proj2 parse_line_never_raises);
      [reflexivity|reflexivity|vm_compute; lia|].
    right. exists ValueError. reflexivity.
  - apply (proj2 parse_line_never_raises);
      [reflexivity|reflexivity|vm_compute; lia|].
    left. reflexivity.
Defined.

(** C10: [parse_line] puts no bound on the TTL.  When a line has at least
    four fields and [int] accepts the second one, any record the line
    gives carries exactly that integer, and the line gives a record unless
    it begins with [;] or [$]. *)
Theorem parse_line_keeps_any_integer line z :
  4 <= length (fields line) ->
  Py.int (field 1 line) = Ok z ->
  (forall row, parse_line line = Ok (Some row) -> ttl row = Some z) /\
  (Py.startswith ";" line = false -> Py.startswith "$" line = false ->
   exists row, parse_line line = Ok (Some row) /\ ttl row = Some z).
Proof.
  intros H4 Hz. split.
  - intros row. rewrite parse_line_fields.
    destruct (skipped line); [discriminate|].
    intros [= <-]. simpl. unfold integer_or_absent. now rewrite Hz.
  - intros H1 H2. rewrite parse_line_not_skipped by now apply not_skipped.
    eexists. split; [reflexivity|]. simpl. unfold integer_or_absent.
    now rewrite Hz.
Qed.

Lemma parse_line_keeps_any_integer_witness :
  exists row,
    parse_line (tabbed ["a"; " -99999999999 "; "IN"; "A"]) = Ok (Some row)
    /\ ttl row = Some (-99999999999)%Z.
Proof.
  apply (proj2 (parse_line_keeps_any_integer
                  (tabbed ["a"; " -99999999999 "; "IN"; "A"])
                  (-99999999999)%Z
                  ltac:(vm_compute; lia) ltac:(reflexivity)));
    reflexivity.
Defined.

(** ** The store monad *)

Lemma bind_ok {A B} (m : M A) (k : A -> M B) d a d' :
  m d = (Ok a, d') -> (m ≫= k) d = k a d'.
Proof. intros H. unfold mbind, M_bind. now rewrite H. Qed.

Lemma bind_raise {A B} (m : M A) (k : A -> M B) d e d' :
  m d = (Raise e, d') -> (m ≫= k) d = (Raise e, d').
Proof. intros H. unfold mbind, M_bind. now rewrite H. Qed.

(** ** [sync_tld_to_db] on a server that does not fail *)

Lemma stream_zone_lines_rows path :
  stream_zone_lines path = map Ok (parsed_rows path).
Proof.
  induction path as [|line rest IH]; [reflexivity|].
  unfold parsed_rows in *. simpl. rewrite parse_line_fields.
  destruct (skipped line); simpl; now rewrite IH.
Qed.

Lemma length_stream path :
  length (stream_zone_lines path) = length (parsed_rows path).
Proof. rewrite stream_zone_lines_rows. apply length_map. Qed.

Lemma flushed_all tld B rows : forall batch,
  concat (fst (flushed tld B rows batch)) ++ snd (flushed tld B rows batch)
  = batch ++ map (stored tld) rows.
Proof.
  induction rows as [|row rest IH]; intros batch; simpl.
  - now rewrite app_nil_r.
  - destruct (B <=? Z.of_nat (length (batch ++ [stored tld row])))%Z; simpl.
    + rewrite <- !app_assoc. rewrite IH. reflexivity.
    + rewrite IH. now rewrite <- app_assoc.
Qed.

Lemma flushed_below tld B rows : forall batch,
  (Z.of_nat (length batch + length rows) < B)%Z ->
  flushed tld B rows batch = ([], batch ++ map (stored tld) rows).
Proof.
  induction rows as [|row rest IH]; intros batch Hlt; simpl.
  - now rewrite app_nil_r.
  - simpl in Hlt.
    assert (Hlen : length (batch ++ [stored tld row]) = S (length batch))
      by (rewrite length_app; simpl; lia).
    destruct (Z.leb_spec B (Z.of_nat (length (batch ++ [stored tld row]))))
      as [Hle|_]; [rewrite Hlen in Hle; lia|].
    rewrite IH by (rewrite Hlen; lia). now rewrite <- app_assoc.
Qed.

Lemma concat_batches tld B rows :
  concat (batches tld B rows) = map (stored tld) rows.
Proof.
  unfold batches. rewrite concat_app.
  pose proof (flushed_all tld B rows []) as H. simpl in H. rewrite <- H.
  f_equal. destruct (snd (flushed tld B rows [])); simpl;
    [reflexivity|now rewrite app_nil_r].
Qed.

Lemma batches_below tld B rows :
  (Z.of_nat (length rows) < B)%Z ->
  batches tld B rows = match rows with [] => [] | _ => [map (stored tld) rows] end.
Proof.
  intros Hlt. unfold batches. rewrite flushed_below by (simpl; lia).
  simpl. now destruct rows.
Qed.

Lemma insert_rows_flushed tld B rows : forall batch ins c v k tr,
  insert_rows tld B (map Ok rows) batch ins (Db c v None k tr) =
  (Ok (snd (flushed tld B rows batch),
       ins + length (concat (fst (flushed tld B rows batch)))),
   Db c (Tables (records v ++ concat (fst (flushed tld B rows batch))) (zones v))
      None (k + length (fst (flushed tld B rows batch)))
      (tr ++ map InsertRecords (fst (flushed tld B rows batch)))).
Proof.
  induction rows as [|row rest IH]; intros batch ins c v k tr; simpl.
  - rewrite !app_nil_r, !Nat.add_0_r. now destruct v.
  - fold (stored tld row).
    destruct (B <=? Z.of_nat (length (batch ++ [stored tld row])))%Z; simpl.
    + unfold mbind, M_bind, execute_values, operation. simpl.
      rewrite IH. simpl. rewrite !length_app, <- !app_assoc. simpl.
      f_equal; [do 2 f_equal; lia | f_equal; lia].
    + apply IH.
Qed.

Lemma execute_delete_ok tld c v k tr :
  execute_delete tld (Db c v None k tr)
  = (Ok (length (List.filter (has_tld tld) (records v))),
     Db c (Tables (List.filter (fun r => negb (has_tld tld r)) (records v)) (zones v))
        None (S k) (tr ++ [DeleteRecords tld])).
Proof. reflexivity. Qed.

Lemma execute_values_ok batch c v k tr :
  execute_values batch (Db c v None k tr)
  = (Ok tt, Db c (Tables (records v ++ batch) (zones v)) None (S k)
               (tr ++ [InsertRecords batch])).
Proof. reflexivity. Qed.

Lemma execute_upsert_ok tld c v k tr :
  execute_upsert tld (Db c v None k tr)
  = (Ok tt, Db c (Tables (records v) (<[tld := k]> (zones v))) None (S k)
               (tr ++ [UpsertZone tld])).
Proof. reflexivity. Qed.

Lemma commit_ok c v k tr :
  commit (Db c v None k tr) = (Ok tt, Db v v None (S k) (tr ++ [Commit])).
Proof. reflexivity. Qed.

(** One step of a computation whose first statement is known to succeed. *)
Ltac run lem := erewrite bind_ok by (apply lem); cbv beta iota.

(** On a server that does not fail, a sync returns the number of parsed
    rows and leaves the state [synced]. *)
Lemma sync_tld_to_db_ok tld path B d :
  faults d = None ->
  sync_tld_to_db tld path B d
  = (Ok (length (parsed_rows path)), synced tld B (parsed_rows path) d).
Proof.
  destruct d as [c v f k tr]. simpl. intros ->.
  unfold sync_tld_to_db. rewrite stream_zone_lines_rows.
  run execute_delete_ok. run commit_ok. run insert_rows_flushed.
  unfold synced, batches. cbn [view records zones clock trace].
  pose proof (flushed_all tld B (parsed_rows path) []) as Hall.
  destruct (snd (flushed tld B (parsed_rows path) [])) as [|r b] eqn:E.
  - rewrite app_nil_r in *. simpl in Hall.
    erewrite bind_ok by reflexivity. cbv beta.
    run commit_ok. run execute_upsert_ok. run commit_ok.
    unfold mret, M_ret. rewrite Hall, length_map, <- !app_assoc. simpl.
    rewrite !Nat.add_succ_r, !Nat.add_0_r. reflexivity.
  - simpl in Hall.
    erewrite bind_ok;
      [|erewrite bind_ok by apply execute_values_ok; reflexivity].
    cbv beta.
    run commit_ok. run execute_upsert_ok. run commit_ok.
    unfold mret, M_ret. cbn [records zones].
    rewrite concat_app, map_app, !length_app, <- !app_assoc. simpl.
    rewrite app_nil_r.
    assert (Hn : length (concat (fst (flushed tld B (parsed_rows path) [])))
                 + S (length b) = length (parsed_rows path)).
    { rewrite <- (length_map (stored tld)), <- Hall, length_app. reflexivity. }
    rewrite Hn. rewrite !Nat.add_succ_r, !Nat.add_0_r. reflexivity.
Qed.

Lemma synced_faults tld B rows d : faults (synced tld B rows d) = None.
Proof. reflexivity. Qed.

Lemma synced_records tld B rows d :
  records (committed (synced tld B rows d))
  = List.filter (fun r => negb (has_tld tld r)) (records (view d))
    ++ map (stored tld) rows.
Proof. unfold synced. simpl. now rewrite concat_batches. Qed.

Lemma synced_view tld B rows d :
  view (synced tld B rows d) = committed (synced tld B rows d).
Proof. reflexivity. Qed.

Lemma filter_has_tld_stored tld rows :
  List.filter (has_tld tld) (map (stored tld) rows) = map (stored tld) rows.
Proof.
  induction rows as [|row rest IH]; [reflexivity|].
  simpl. unfold has_tld at 1. simpl. now rewrite String.eqb_refl, IH.
Qed.

Lemma filter_has_tld_others tld l :
  List.filter (has_tld tld) (List.filter (fun r => negb (has_tld tld r)) l) = [].
Proof.
  induction l as [|r l IH]; [reflexivity|].
  simpl. destruct (has_tld tld r) eqn:E; simpl; [exact IH|].
  now rewrite E.
Qed.

Lemma synced_records_of tld B rows d :
  records_of tld (committed (synced tld B rows d)) = map (stored tld) rows.
Proof.
  unfold records_of. rewrite synced_records, List.filter_app.
  now rewrite filter_has_tld_others, filter_has_tld_stored.
Qed.

(** Rows of another key are left as they were. *)
Lemma synced_records_of_other tld other B rows d :
  other <> tld ->
  records_of other (committed (synced tld B rows d)) = records_of other (view d).
Proof.
  intros Hne. unfold records_of. rewrite synced_records, List.filter_app.
  assert (H1 : List.filter (has_tld other) (map (stored tld) rows) = []).
  { induction rows as [|row rest IH]; [reflexivity|].
    simpl. unfold has_tld at 1. simpl.
    destruct (String.eqb_spec tld other); [congruence|exact IH]. }
  rewrite H1, app_nil_r.
  induction (records (view d)) as [|r l IH]; [reflexivity|].
  simpl. destruct (has_tld tld r) eqn:E1; simpl.
  - destruct (has_tld other r) eqn:E2; [|exact IH].
    unfold has_tld in *. apply String.eqb_eq in E1, E2. congruence.
  - destruct (has_tld other r); [now rewrite IH|exact IH].
Qed.

Lemma bulk_inserts_app tr1 tr2 :
  bulk_inserts (tr1 ++ tr2) = bulk_inserts tr1 + bulk_inserts tr2.
Proof. unfold bulk_inserts. now rewrite List.filter_app, length_app. Qed.

Lemma rows_inserted_app tr1 tr2 :
  rows_inserted (tr1 ++ tr2) = rows_inserted tr1 + rows_inserted tr2.
Proof.
  induction tr1 as [|ev tr1 IH]; [reflexivity|].
  simpl. destruct ev; rewrite IH; lia.
Qed.

Lemma bulk_inserts_map l : bulk_inserts (map InsertRecords l) = length l.
Proof.
  unfold bulk_inserts. induction l as [|b l IH]; [reflexivity|].
  simpl. now rewrite IH.
Qed.

Lemma rows_inserted_map l :
  rows_inserted (map InsertRecords l) = length (concat l).
Proof.
  induction l as [|b l IH]; [reflexivity|].
  simpl. now rewrite IH, length_app.
Qed.

Lemma synced_bulk_inserts tld B rows d :
  bulk_inserts (trace (synced tld B rows d))
  = bulk_inserts (trace d) + length (batches tld B rows).
Proof.
  unfold synced. cbn [trace]. rewrite !bulk_inserts_app, bulk_inserts_map.
  simpl. unfold bulk_inserts. simpl. lia.
Qed.

Lemma synced_rows_inserted tld B rows d :
  rows_inserted (trace (synced tld B rows d))
  = rows_inserted (trace d) + length rows.
Proof.
  unfold synced. cbn [trace]. rewrite !rows_inserted_app, rows_inserted_map.
  rewrite concat_batches, length_map. simpl. lia.
Qed.

(** C5, as the code has it: on a server that does not fail, and for a
    batch size of at least 1, [sync_tld_to_db] returns the number N of
    parsed rows, which is the number of rows its bulk inserts carry.  When
    the batch size is above N, it sends one bulk insert if N is at least
    1, and none if N is 0. *)
Theorem sync_returns_row_count tld path B d :
  (1 <= B)%Z ->
  faults d = None ->
  exists d',
    sync_tld_to_db tld path B d = (Ok (length (stream_zone_lines path)), d') /\
    rows_inserted (trace d')
    = rows_inserted (trace d) + length (stream_zone_lines path) /\
    ((Z.of_nat (length (stream_zone_lines path)) < B)%Z ->
     bulk_inserts (trace d')
     = bulk_inserts (trace d)
       + if Nat.eqb (length (stream_zone_lines path)) 0 then 0 else 1).
Proof.
  intros HB Hf. rewrite length_stream.
  exists (synced tld B (parsed_rows path) d).
  split; [now apply sync_tld_to_db_ok|].
  split; [apply synced_rows_inserted|].
  intros Hlt. rewrite synced_bulk_inserts, batches_below by exact Hlt.
  now destruct (parsed_rows path).
Qed.

Lemma sync_returns_row_count_witness :
  exists d',
    sync_tld_to_db "test"
      [tabbed ["a"; "3600"; "IN"; "A"; "1.1.1.1"]; ";comment";
       tabbed ["b"; "60"; "IN"; "NS"; "ns.example."]] 5 (empty_db None)
    = (Ok 2, d') /\
    rows_inserted (trace d') = 2 /\ bulk_inserts (trace d') = 1.
Proof.
  destruct (sync_returns_row_count "test"
              [tabbed ["a"; "3600"; "IN"; "A"; "1.1.1.1"]; ";comment";
               tabbed ["b"; "60"; "IN"; "NS"; "ns.example."]] 5 (empty_db None))
    as [d' [Hrun [Hrows Hone]]]; [lia|reflexivity|].
  exists d'. split; [exact Hrun|]. split; [exact Hrows|].
  apply Hone. vm_compute. reflexivity.
Defined.

(** C5 as it is written fails for a file with no record: the batch size
    1 is above N = 0, and no bulk insert is sent. *)
Lemma sync_returns_row_count_counterexample :
  length (stream_zone_lines [";comment"; newline]) = 0 /\
  fst (sync_tld_to_db "test" [";comment"; newline] 1 (empty_db None)) = Ok 0 /\
  bulk_inserts
    (trace (snd (sync_tld_to_db "test" [";comment"; newline] 1 (empty_db None))))
  = 0.
Proof. split; [|split]; reflexivity. Qed.

(** The scenario of the specification: two lines, one of them a comment,
    and a batch size of 1. *)
Example sync_scenario :
  let run := sync_tld_to_db "test"
               [tabbed ["a"; "3600"; "IN"; "A"; "1.1.1.1"]; ";comment"] 1
               (empty_db None) in
  fst run = Ok 1 /\
  records (committed (snd run))
  = [RecordRow "test" "a" (Some 3600%Z) (Some "IN") (Some "A") (Some "1.1.1.1")] /\
  zones (committed (snd run)) !! "test" = Some 4 /\
  trace (snd run)
  = [DeleteRecords "test"; Commit;
     InsertRecords [RecordRow "test" "a" (Some 3600%Z) (Some "IN") (Some "A")
                              (Some "1.1.1.1")];
     Commit; UpsertZone "test"; Commit].
Proof. vm_compute. repeat split. Qed.

(** C6: on a server that does not fail and for a batch size of at least
    1, two syncs in a row of the same key, file and batch size return the
    same count, and after each of them the rows of the key are the rows of
    the file: the second run replaces those of the first. *)
Theorem sync_twice_same tld path B d :
  (1 <= B)%Z ->
  faults d = None ->
  exists n d1 d2,
    sync_tld_to_db tld path B d = (Ok n, d1) /\
    sync_tld_to_db tld path B d1 = (Ok n, d2) /\
    records_of tld (committed d1) = map (stored tld) (parsed_rows path) /\
    records_of tld (committed d2) = records_of tld (committed d1).
Proof.
  intros HB Hf.
  exists (length (parsed_rows path)),
         (synced tld B (parsed_rows path) d),
         (synced tld B (parsed_rows path) (synced tld B (parsed_rows path) d)).
  split; [now apply sync_tld_to_db_ok|].
  split; [apply sync_tld_to_db_ok, synced_faults|].
  now rewrite !synced_records_of.
Qed.

Lemma sync_twice_same_witness :
  exists n d1 d2,
    sync_tld_to_db "test"
      [tabbed ["a"; "3600"; "IN"; "A"; "1.1.1.1"]; ";comment"] 1 (empty_db None)
    = (Ok n, d1) /\
    sync_tld_to_db "test"
      [tabbed ["a"; "3600"; "IN"; "A"; "1.1.1.1"]; ";comment"] 1 d1
    = (Ok n, d2) /\
    records_of "test" (committed d1)
    = map (stored "test")
          (parsed_rows [tabbed ["a"; "3600"; "IN"; "A"; "1.1.1.1"]; ";comment"]) /\
    records_of "test" (committed d2) = records_of "test" (committed d1).
Proof.
  apply (sync_twice_same "test"
           [tabbed ["a"; "3600"; "IN"; "A"; "1.1.1.1"]; ";comment"] 1
           (empty_db None)).
  - lia.
  - reflexivity.
Defined.

(** ** The selection *)

Lemma slice_to_firstn {A} (l : list A) n :
  (0 <= n)%Z -> Py.slice_to l n = firstn (Z.to_nat n) l.
Proof.
  intros Hn. unfold Py.slice_to.
  destruct (Z.leb_spec 0 n); [reflexivity|lia].
Qed.

Lemma among_spec x l : among x l = true <-> In x l.
Proof.
  unfold among. rewrite existsb_exists. split.
  - intros [y [Hin Heq]]. apply String.eqb_eq in Heq. now subst.
  - intros Hin. exists x. split; [exact Hin|apply String.eqb_refl].
Qed.

Lemma is_empty_spec s : Py.is_empty s = true <-> s = EmptyString.
Proof. destruct s; simpl; split; congruence. Qed.

Lemma tld_whitelist_some env w :
  TLD_WHITELIST env = Some w ->
  Py.strip w <> EmptyString ->
  tld_whitelist env
  = Some (map (fun s => Py.lower (Py.strip s))
              (List.filter (fun s => negb (Py.is_empty (Py.strip s)))
                           (Py.split "," (Py.strip w)))).
Proof.
  intros Hw Hne. unfold tld_whitelist. rewrite Hw. simpl.
  destruct (Py.strip w); [congruence|reflexivity].
Qed.

Lemma in_entries w x :
  In x (map (fun s => Py.lower (Py.strip s))
            (List.filter (fun s => negb (Py.is_empty (Py.strip s)))
                         (Py.split "," (Py.strip w))))
  <-> exists e, In e (Py.split "," (Py.strip w)) /\ Py.strip e <> EmptyString
                /\ Py.lower (Py.strip e) = x.
Proof.
  rewrite in_map_iff. split.
  - intros [e [Hx Hin]]. apply filter_In in Hin as [Hin Hne].
    exists e. repeat split; trivial.
    intros Hs. rewrite Hs in Hne. discriminate.
  - intros [e [Hin [Hne Hx]]]. exists e. split; [exact Hx|].
    apply filter_In. split; [exact Hin|].
    destruct (Py.strip e); [congruence|reflexivity].
Qed.

(** C8: with an allow-list that has an entry, the selection is the listed
    resources, in listing order, whose key equals an entry once both are in
    lower case (entries are trimmed), whatever the maximum count; with no
    allow-list it is [url_tlds[:max_tlds]], the first [max] resources in
    listing order for a count, that is for [max] not negative. *)
Theorem allow_list_precedence :
  (forall env w max urls,
     TLD_WHITELIST env = Some w ->
     (exists e, In e (Py.split "," (Py.strip w)) /\ Py.strip e <> EmptyString) ->
     exists allowed : string -> bool,
       (forall key,
          allowed key = true <->
          exists e, In e (Py.split "," (Py.strip w)) /\ Py.strip e <> EmptyString
                    /\ Py.lower (Py.strip e) = Py.lower key) /\
       select_url_tlds (tld_whitelist env) max urls
       = List.filter (fun ut => allowed (snd ut))
                     (map (fun u => (u, tld_from_url u)) urls)) /\
  (forall env max urls,
     unset (TLD_WHITELIST env) = true ->
     select_url_tlds (tld_whitelist env) max urls
     = Py.slice_to (map (fun u => (u, tld_from_url u)) urls) max /\
     ((0 <= max)%Z ->
      select_url_tlds (tld_whitelist env) max urls
      = firstn (Z.to_nat max) (map (fun u => (u, tld_from_url u)) urls))).
Proof.
  split.
  - intros env w max urls Hw [e0 [Hin0 Hne0]].
    assert (Hstrip : Py.strip w <> EmptyString).
    { intros Hs. rewrite Hs in Hin0. simpl in Hin0.
      destruct Hin0 as [<-|[]]. now apply Hne0. }
    exists (fun key =>
      among (Py.lower key)
        (map (fun s => Py.lower (Py.strip s))
             (List.filter (fun s => negb (Py.is_empty (Py.strip s)))
                          (Py.split "," (Py.strip w))))).
    split.
    + intros key. rewrite among_spec. apply in_entries.
    + rewrite (tld_whitelist_some env w Hw Hstrip). unfold select_url_tlds.
      destruct (map _ (List.filter _ (Py.split "," (Py.strip w)))) eqn:E;
        [|reflexivity].
      exfalso.
      assert (Hin : In (Py.lower (Py.strip e0)) []); [|destruct Hin].
      rewrite <- E. apply in_entries. eauto.
  - intros env max urls Hu.
    assert (H : select_url_tlds (tld_whitelist env) max urls
                = Py.slice_to (map (fun u => (u, tld_from_url u)) urls) max).
    { unfold tld_whitelist, unset in *.
      destruct (TLD_WHITELIST env) as [w|]; [|reflexivity].
      apply is_empty_spec in Hu. now subst w. }
    split; [exact H|].
    intros Hmax. rewrite H. now apply slice_to_firstn.
Qed.

Lemma allow_list_precedence_witness :
  (exists allowed : string -> bool,
     (forall key,
        allowed key = true <->
        exists e, In e (Py.split "," (Py.strip " Com, ,NET "))
                  /\ Py.strip e <> EmptyString
                  /\ Py.lower (Py.strip e) = Py.lower key) /\
     select_url_tlds
       (tld_whitelist (Environ None None None (Some "1") None (Some " Com, ,NET ")))
       1 ["https://h/com.zone"; "https://h/org.zone"; "https://h/Net.zone"]
     = List.filter (fun ut => allowed (snd ut))
         (map (fun u => (u, tld_from_url u))
              ["https://h/com.zone"; "https://h/org.zone"; "https://h/Net.zone"])) /\
  select_url_tlds (tld_whitelist (Environ None None None (Some "2") None None))
    2 ["https://h/com.zone"; "https://h/org.zone"; "https://h/Net.zone"]
  = [("https://h/com.zone", "com"); ("https://h/org.zone", "org")].
Proof.
  split.
  - apply (proj1 allow_list_precedence
             (Environ None None None (Some "1") None (Some " Com, ,NET "))
             " Com, ,NET " 1%Z).
    + reflexivity.
    + exists "Com". split; [left; reflexivity|discriminate].
  - apply (proj2 allow_list_precedence
             (Environ None None None (Some "2") None None) 2%Z
             ["https://h/com.zone"; "https://h/org.zone"; "https://h/Net.zone"]
             eq_refl).
    lia.
Defined.

Example allow_list_beats_count :
  select_url_tlds
    (tld_whitelist (Environ None None None (Some "1") None (Some " Com, ,NET ")))
    1 ["https://h/com.zone"; "https://h/org.zone"; "https://h/Net.zone"]
  = [("https://h/com.zone", "com"); ("https://h/Net.zone", "Net")].
Proof. reflexivity. Qed.

(** A negative count is a slice bound counted from the end. *)
Example negative_count :
  select_url_tlds None (-1)
    ["https://h/com.zone"; "https://h/org.zone"; "https://h/net.zone"]
  = [("https://h/com.zone", "com"); ("https://h/org.zone", "org")].
Proof. reflexivity. Qed.

(** C9: an allow-list value whose entries are all blank selects as if no
    allow-list were set: [url_tlds[:max_tlds]], which is the first [max]
    resources for a count that is not negative. *)
Theorem blank_allow_list env w max urls :
  TLD_WHITELIST env = Some w ->
  (forall e, In e (Py.split "," (Py.strip w)) -> Py.strip e = EmptyString) ->
  select_url_tlds (tld_whitelist env) max urls = select_url_tlds None max urls /\
  select_url_tlds (tld_whitelist env) max urls
  = Py.slice_to (map (fun u => (u, tld_from_url u)) urls) max /\
  ((0 <= max)%Z ->
   select_url_tlds (tld_whitelist env) max urls
   = firstn (Z.to_nat max) (map (fun u => (u, tld_from_url u)) urls)).
Proof.
  intros Hw Hblank.
  assert (H : select_url_tlds (tld_whitelist env) max urls
              = Py.slice_to (map (fun u => (u, tld_from_url u)) urls) max).
  { unfold tld_whitelist. rewrite Hw. simpl.
    destruct (Py.is_empty (Py.strip w)); [reflexivity|].
    assert (Hnil : List.filter (fun s => negb (Py.is_empty (Py.strip s)))
                               (Py.split "," (Py.strip w)) = []).
    { induction (Py.split "," (Py.strip w)) as [|e l IH]; [reflexivity|].
      simpl. rewrite (Hblank e) by now left. simpl.
      apply IH. intros e' He'. apply Hblank. now right. }
    rewrite Hnil. reflexivity. }
  split; [exact H|]. split; [exact H|].
  intros Hmax. rewrite H. now apply slice_to_firstn.
Qed.

Lemma blank_allow_list_witness :
  select_url_tlds
    (tld_whitelist (Environ None None None (Some "2") None (Some " , ")))
    2 ["https://h/com.zone"; "https://h/org.zone"; "https://h/net.zone"]
  = [("https://h/com.zone", "com"); ("https://h/org.zone", "org")].
Proof.
  apply (proj2 (proj2 (blank_allow_list
           (Environ None None None (Some "2") None (Some " , ")) " , " 2%Z
           ["https://h/com.zone"; "https://h/org.zone"; "https://h/net.zone"]
           eq_refl
           ltac:(intros e [<-|[<-|[]]]; reflexivity)))).
  lia.
Defined.

(** ** [tld_from_url] *)

Example tld_from_url_zone :
  tld_from_url "https://czds-download-api.icann.org/czds/downloads/example.zone"
  = "example".
Proof. reflexivity. Qed.

Example tld_from_url_gz :
  tld_from_url "https://czds-download-api.icann.org/czds/downloads/example.gz"
  = "example.gz".
Proof. reflexivity. Qed.

Lemma replace_from_plain stem :
  count "." stem = 0 ->
  Py.replace_from ".zone" "" 0 (stem +:+ ".zone") = stem.
Proof.
  induction stem as [|c r IH]; [reflexivity|].
  intros Hc. simpl in Hc.
  destruct (Ascii.eqb_spec c "."); [discriminate|].
  change (String c r +:+ ".zone") with (String c (r +:+ ".zone")).
  cbn [Py.replace_from String.prefix].
  destruct (ascii_dec "." c) as [E|_]; [congruence|].
  rewrite IH; [reflexivity|lia].
Qed.

(** Where the stem has no dot, [replace] removes the suffix and nothing
    else. *)
Lemma replace_suffix_plain stem :
  count "." stem = 0 -> Py.replace ".zone" "" (stem +:+ ".zone") = stem.
Proof. apply replace_from_plain. Qed.

(** C2 fails on the code: [replace] removes every [.zone] of the segment,
    not only the last one. *)
Theorem tld_from_url_strips_every_suffix :
  tld_from_url "https://czds-download-api.icann.org/czds/downloads/my.zone.zone"
  = "my".
Proof. reflexivity. Qed.

(** ** A statement that fails *)

Lemma attempted_app tr1 tr2 :
  attempted (tr1 ++ tr2) = attempted tr1 ++ attempted tr2.
Proof. apply omap_app. Qed.

Lemma quiet_ret {A} (a : A) : quiet (mret a).
Proof. intros d r d' [= <- <-]. reflexivity. Qed.

Lemma quiet_lift {A} (r : result A) : quiet (lift r).
Proof. intros d r' d' [= <- <-]. reflexivity. Qed.

Lemma quiet_bind {A B} (m : M A) (k : A -> M B) :
  quiet m -> (forall a, quiet (k a)) -> quiet (m ≫= k).
Proof.
  intros Hm Hk d r d'. unfold mbind, M_bind.
  destruct (m d) as [[a|e] d1] eqn:E.
  - intros H. rewrite (Hk a _ _ _ H). exact (Hm _ _ _ E).
  - intros [= <- <-]. exact (Hm _ _ _ E).
Qed.

Lemma quiet_operation ev change :
  attempted [ev] = [] -> quiet (operation ev change).
Proof.
  intros Hev d r d'. unfold operation.
  destruct (faults d) as [[|n]|]; intros [= <- <-]; simpl;
    rewrite ?attempted_app, ?Hev, ?app_nil_r; reflexivity.
Qed.

Lemma quiet_emit ev : attempted [ev] = [] -> quiet (emit ev).
Proof.
  intros Hev d r d' [= <- <-]. simpl.
  now rewrite attempted_app, Hev, app_nil_r.
Qed.

Lemma quiet_commit : quiet commit.
Proof.
  intros d r d'. unfold commit.
  destruct (operation Commit view d) as [[[]|e] d1] eqn:E;
    intros [= <- <-]; simpl;
    exact (quiet_operation Commit view eq_refl _ _ _ E).
Qed.

Lemma quiet_execute_delete tld : quiet (execute_delete tld).
Proof.
  intros d r d'. unfold execute_delete.
  match goal with
  | |- context [operation ?ev ?ch d] =>
      destruct (operation ev ch d) as [[[]|e] d1] eqn:E;
      intros [= <- <-]; exact (quiet_operation ev ch eq_refl _ _ _ E)
  end.
Qed.

Lemma quiet_connect : quiet connect.
Proof. intros d r d' [= <- <-]. reflexivity. Qed.

Lemma quiet_try_finally {A} (body : M A) (fin : M unit) :
  quiet body -> quiet fin -> quiet (try_finally body fin).
Proof.
  intros Hb Hf d r d'. unfold try_finally.
  destruct (body d) as [[a|e] d1] eqn:E1;
    destruct (fin d1) as [[[]|e'] d2] eqn:E2;
    intros [= <- <-];
    rewrite (Hf _ _ _ E2); exact (Hb _ _ _ E1).
Qed.

Lemma quiet_insert_rows tld B rows : forall batch ins,
  quiet (insert_rows tld B rows batch ins).
Proof.
  induction rows as [|[row|e] rest IH]; intros batch ins; simpl.
  - apply quiet_ret.
  - destruct (B <=? _)%Z; [|apply IH].
    apply quiet_bind; [now apply quiet_operation|intros; apply IH].
  - apply quiet_lift.
Qed.

Lemma quiet_sync_tld_to_db tld path B : quiet (sync_tld_to_db tld path B).
Proof.
  unfold sync_tld_to_db.
  apply quiet_bind; [apply quiet_execute_delete|intros _].
  apply quiet_bind; [apply quiet_commit|intros _].
  apply quiet_bind; [apply quiet_insert_rows|intros [batch ins]].
  apply quiet_bind.
  - destruct batch; [apply quiet_ret|].
    apply quiet_bind; [now apply quiet_operation|intros; apply quiet_ret].
  - intros n.
    apply quiet_bind; [apply quiet_commit|intros _].
    apply quiet_bind; [now apply quiet_operation|intros _].
    apply quiet_bind; [apply quiet_commit|intros _; apply quiet_ret].
Qed.

Lemma quiet_ensure_schema : quiet ensure_schema.
Proof.
  unfold ensure_schema.
  do 3 (apply quiet_bind; [now apply quiet_operation|intros _]).
  apply quiet_commit.
Qed.

Lemma quiet_download_zone client url : quiet (download_zone client url).
Proof.
  unfold download_zone.
  destruct (get_zonefile client url) as [found|[]];
    try apply quiet_ret; try apply quiet_lift;
    (apply quiet_bind; [now apply quiet_emit|intros; apply quiet_ret]).
Qed.

Lemma store_errors_only_ret {A} (a : A) : store_errors_only (mret a).
Proof. intros d e d'. discriminate. Qed.

Lemma store_errors_only_bind {A B} (m : M A) (k : A -> M B) :
  store_errors_only m -> (forall a, store_errors_only (k a)) ->
  store_errors_only (m ≫= k).
Proof.
  intros Hm Hk d e d'. unfold mbind, M_bind.
  destruct (m d) as [[a|e1] d1] eqn:E.
  - apply Hk.
  - intros [= <- <-]. exact (Hm _ _ _ E).
Qed.

Lemma store_errors_only_operation ev change :
  store_errors_only (operation ev change).
Proof.
  intros d e d'. unfold operation.
  destruct (faults d) as [[|n]|]; congruence.
Qed.

Lemma store_errors_only_commit : store_errors_only commit.
Proof.
  intros d e d'. unfold commit.
  destruct (operation Commit view d) as [[[]|e1] d1] eqn:E; [discriminate|].
  intros [= <- <-]. exact (store_errors_only_operation _ _ _ _ _ E).
Qed.

Lemma store_errors_only_execute_delete tld :
  store_errors_only (execute_delete tld).
Proof.
  intros d e d'. unfold execute_delete.
  match goal with
  | |- context [operation ?ev ?ch d] =>
      destruct (operation ev ch d) as [[[]|e1] d1] eqn:E; [discriminate|];
      intros [= <- <-]; exact (store_errors_only_operation _ _ _ _ _ E)
  end.
Qed.

Lemma store_errors_only_insert_rows tld B rows : forall batch ins,
  store_errors_only (insert_rows tld B (map Ok rows) batch ins).
Proof.
  induction rows as [|row rest IH]; intros batch ins; simpl.
  - apply store_errors_only_ret.
  - destruct (B <=? _)%Z; [|apply IH].
    apply store_errors_only_bind;
      [apply store_errors_only_operation|intros; apply IH].
Qed.

(** Whatever the server does, [sync_tld_to_db] raises nothing but the
    error of the store: the generator never raises. *)
Lemma store_errors_only_sync tld path B :
  store_errors_only (sync_tld_to_db tld path B).
Proof.
  unfold sync_tld_to_db. rewrite stream_zone_lines_rows.
  apply store_errors_only_bind; [apply store_errors_only_execute_delete|intros _].
  apply store_errors_only_bind; [apply store_errors_only_commit|intros _].
  apply store_errors_only_bind; [apply store_errors_only_insert_rows|intros [batch ins]].
  apply store_errors_only_bind.
  - destruct batch; [apply store_errors_only_ret|].
    apply store_errors_only_bind;
      [apply store_errors_only_operation|intros; apply store_errors_only_ret].
  - intros n.
    apply store_errors_only_bind; [apply store_errors_only_commit|intros _].
    apply store_errors_only_bind; [apply store_errors_only_operation|intros _].
    apply store_errors_only_bind;
      [apply store_errors_only_commit|intros _; apply store_errors_only_ret].
Qed.

(** ** The loop of [main] *)

Lemma sync_all_app client B total pre : forall i post d,
  sync_all client B total i (pre ++ post) d
  = (sync_all client B total i pre
     ≫= fun _ => sync_all client B total (i + length pre) post) d.
Proof.
  induction pre as [|[url tld] pre IH]; intros i post d; simpl.
  - unfold mbind, M_bind, mret, M_ret. now rewrite Nat.add_0_r.
  - unfold mbind, M_bind in *.
    destruct (sync_one client B total i url tld d) as [[[]|e] d1];
      [|reflexivity].
    rewrite IH. now rewrite Nat.add_succ_r.
Qed.

Lemma sync_one_attempted client B total i url tld d r d' :
  sync_one client B total i url tld d = (r, d') ->
  attempted (trace d') = attempted (trace d) ++ [tld].
Proof.
  unfold sync_one. unfold mbind at 1, M_bind at 1. simpl.
  intros H.
  match type of H with
  | ?m ?d0 = _ => assert (Hq : quiet m)
  end.
  { apply quiet_bind; [apply quiet_download_zone|intros [path|]].
    - apply quiet_bind; [apply quiet_connect|intros _].
      apply quiet_try_finally; [|apply quiet_connect].
      apply quiet_bind; [apply quiet_sync_tld_to_db|intros n].
      now apply quiet_emit.
    - apply quiet_ret. }
  rewrite (Hq _ _ _ H). simpl. now rewrite attempted_app.
Qed.

Lemma sync_all_attempted client B total pre : forall i d d',
  sync_all client B total i pre d = (Ok tt, d') ->
  attempted (trace d') = attempted (trace d) ++ map snd pre.
Proof.
  induction pre as [|[url tld] pre IH]; intros i d d'; simpl.
  - intros [= <-]. now rewrite app_nil_r.
  - unfold mbind, M_bind.
    destruct (sync_one client B total i url tld d) as [[[]|e] d1] eqn:E;
      [|discriminate].
    intros H. rewrite (IH _ _ _ H), (sync_one_attempted _ _ _ _ _ _ _ _ _ E).
    now rewrite <- app_assoc.
Qed.

Lemma select_url_tlds_nil whitelist max : select_url_tlds whitelist max [] = [].
Proof.
  unfold select_url_tlds, Py.slice_to. simpl.
  destruct whitelist as [[|e es]|]; try reflexivity;
    destruct (0 <=? max)%Z; simpl; try reflexivity; apply firstn_nil.
Qed.

(** C1, as the code has it: when a statement of the store fails during the
    sync of one key, [main] closes the connection and lets the exception
    go: the run ends there with [StoreError] and status 1, and the keys
    announced are those up to the failing one, none of the later ones. *)
Theorem store_failure_aborts_run
    env account d max B urls pre url tld rest d0 d1 path e d2 :
  unset (DATABASE_URL env) = false ->
  Py.int (default "10" (MAX_TLDS env)) = Ok max ->
  Py.int (default "5000" (BATCH_SIZE env)) = Ok B ->
  unset (CZDS_USERNAME env) || unset (CZDS_PASSWORD env) = false ->
  get_zonefiles_list account = Ok urls ->
  select_url_tlds (tld_whitelist env) max urls = pre ++ (url, tld) :: rest ->
  (connect ≫= fun _ => try_finally ensure_schema close) d = (Ok tt, d0) ->
  sync_all account B (length (pre ++ (url, tld) :: rest)) 1 pre d0 = (Ok tt, d1) ->
  get_zonefile account url = Ok (Some path) ->
  (emit (Progress (S (length pre)) (length (pre ++ (url, tld) :: rest)) tld)
   ≫= fun _ => connect ≫= fun _ => sync_tld_to_db tld path B) d1
  = (Raise e, d2) ->
  main env account d = (Raise StoreError, snd (close d2)) /\
  exit_status (fst (main env account d)) = 1%Z /\
  attempted (trace (snd (main env account d)))
  = attempted (trace d) ++ map snd pre ++ [tld].
Proof.
  intros Hdb Hmax HB Hcred Hurls Hsel Hschema Hpre Hget Hfail.
  assert (He : e = StoreError).
  { unfold mbind, M_bind in Hfail. simpl in Hfail.
    exact (store_errors_only_sync _ _ _ _ _ _ Hfail). }
  subst e.
  assert (Hone : sync_one account B (length (pre ++ (url, tld) :: rest))
                   (S (length pre)) url tld d1
                 = (Raise StoreError, snd (close d2))).
  { unfold sync_one, download_zone. rewrite Hget.
    unfold mbind, M_bind, try_finally in *. simpl in *.
    now rewrite Hfail. }
  assert (Hloop : sync_all account B (length (pre ++ (url, tld) :: rest)) 1
                    (pre ++ (url, tld) :: rest) d0
                  = (Raise StoreError, snd (close d2))).
  { rewrite sync_all_app. erewrite bind_ok by exact Hpre.
    simpl. erewrite bind_raise by exact Hone. reflexivity. }
  assert (Hmain : main env account d = (Raise StoreError, snd (close d2))).
  { unfold main, get_client. rewrite Hdb, Hmax, HB, Hcred.
    unfold lift. unfold mbind at 1 2 3 4, M_bind at 1 2 3 4. cbv beta iota.
    unfold mret at 1, M_ret at 1. cbv beta iota. rewrite Hurls.
    cbv beta iota.
    destruct urls as [|u urls'].
    { rewrite select_url_tlds_nil in Hsel. destruct pre; discriminate Hsel. }
    rewrite Hsel.
    destruct (pre ++ (url, tld) :: rest) as [|p l] eqn:El.
    { destruct pre; discriminate El. }
    unfold mbind at 1, M_bind at 1, connect at 1. cbv beta iota.
    unfold mbind, M_bind, connect in Hschema. cbv beta iota in Hschema.
    erewrite bind_ok by exact Hschema.
    erewrite bind_raise by exact Hloop. reflexivity. }
  rewrite Hmain. split; [reflexivity|]. split; [reflexivity|].
  simpl.
  assert (H0 : attempted (trace d0) = attempted (trace d)).
  { refine (_ : attempted (trace d0) = attempted (trace (snd (connect d)))).
    eapply (quiet_bind connect (fun _ => try_finally ensure_schema close));
      [apply quiet_connect| |exact Hschema].
    intros _. apply quiet_try_finally;
      [apply quiet_ensure_schema|apply quiet_connect]. }
  assert (H2 : attempted (trace d2) = attempted (trace d1) ++ [tld]).
  { unfold mbind, M_bind in Hfail. simpl in Hfail.
    rewrite (quiet_sync_tld_to_db _ _ _ _ _ _ Hfail). simpl.
    now rewrite attempted_app. }
  rewrite H2, (sync_all_attempted _ _ _ _ _ _ _ Hpre), H0.
  now rewrite <- app_assoc.
Qed.

Lemma store_failure_aborts_run_witness :
  fst (main scenario_env scenario_account (empty_db (Some 12))) = Raise StoreError /\
  exit_status (fst (main scenario_env scenario_account (empty_db (Some 12)))) = 1%Z /\
  attempted (trace (snd (main scenario_env scenario_account (empty_db (Some 12)))))
  = ["test"; "b"].
Proof.
  pose (d := empty_db (Some 12)).
  pose (pre := [("https://czds.example/downloads/test.zone", "test")]).
  pose (rest := [("https://czds.example/downloads/c.zone", "c")]).
  pose (d0 := snd ((connect ≫= fun _ => try_finally ensure_schema close) d)).
  pose (d1 := snd (sync_all scenario_account 1 3 1 pre d0)).
  pose (d2 := snd ((emit (Progress 2 3 "b")
                    ≫= fun _ => connect
                    ≫= fun _ => sync_tld_to_db "b" scenario_file 1) d1)).
  destruct (store_failure_aborts_run scenario_env scenario_account d 10 1
              scenario_urls pre "https://czds.example/downloads/b.zone" "b" rest
              d0 d1 scenario_file StoreError d2)
    as [Hmain [Hstatus Hkeys]]; try (vm_compute; reflexivity).
  split; [exact (f_equal fst Hmain)|]. split; [exact Hstatus|exact Hkeys].
Defined.

(** C1 as it is written fails: with three keys selected and a statement
    that fails during the sync of the second, the run ends with status 1
    and the third key is never announced; on a server that does not fail
    the same run announces the three and ends with status 0. *)
Lemma store_failure_aborts_run_counterexample :
  map snd (select_url_tlds (tld_whitelist scenario_env) 10 scenario_urls)
  = ["test"; "b"; "c"] /\
  fst (main scenario_env scenario_account (empty_db (Some 12))) = Raise StoreError /\
  exit_status (fst (main scenario_env scenario_account (empty_db (Some 12)))) = 1%Z /\
  attempted (trace (snd (main scenario_env scenario_account (empty_db (Some 12)))))
  = ["test"; "b"] /\
  exit_status (fst (main scenario_env scenario_account (empty_db None))) = 0%Z /\
  attempted (trace (snd (main scenario_env scenario_account (empty_db None))))
  = ["test"; "b"; "c"].
Proof. vm_compute. repeat split. Qed.

(** A download that fails is another matter: the key is skipped and the
    run goes on. *)
Example download_failure_skips_key :
  let account := Client (Ok scenario_urls)
                   (fun url => if String.eqb url "https://czds.example/downloads/b.zone"
                               then Raise ClientError
                               else Ok (Some scenario_file)) in
  let run := main scenario_env account (empty_db None) in
  fst run = Ok tt /\
  attempted (trace (snd run)) = ["test"; "b"; "c"] /\
  map row_tld (records (committed (snd run))) = ["test"; "c"].
Proof. vm_compute. repeat split. Qed.

(** * Further properties *)

(** ** More on text *)

Lemma rstrip_app_dropped drop s c :
  drop c = true ->
  Py.rstrip drop (s +:+ String c EmptyString) = Py.rstrip drop s.
Proof.
  intros Hc. induction s as [|a r IH]; simpl.
  - now rewrite Hc.
  - now rewrite IH.
Qed.

Lemma count_app c s t : count c (s +:+ t) = count c s + count c t.
Proof.
  induction s as [|a r IH]; [reflexivity|].
  simpl. rewrite IH. lia.
Qed.

Lemma rstrip_clean drop s :
  (forall c, drop c = true -> count c s = 0) -> Py.rstrip drop s = s.
Proof.
  induction s as [|a r IH]; intros H; [reflexivity|].
  simpl. rewrite IH.
  - destruct r; [|reflexivity].
    destruct (drop a) eqn:Ha; [|reflexivity].
    specialize (H a Ha). simpl in H. now rewrite Ascii.eqb_refl in H.
  - intros c Hc. specialize (H c Hc). simpl in H. lia.
Qed.

Lemma split_app_sep sep s t :
  Py.split sep (s +:+ String sep t) = Py.split sep s ++ Py.split sep t.
Proof.
  induction s as [|c r IH]; simpl.
  - now rewrite Ascii.eqb_refl.
  - destruct (Ascii.eqb c sep); [now rewrite IH|].
    rewrite IH. destruct (Py.split sep r) eqn:E; [|reflexivity].
    now apply split_not_nil in E.
Qed.

Lemma split_clean sep s : count sep s = 0 -> Py.split sep s = [s].
Proof.
  induction s as [|c r IH]; [reflexivity|].
  simpl. destruct (Ascii.eqb c sep); [discriminate|].
  intros H. now rewrite IH.
Qed.

Lemma split_pieces_clean sep s x : In x (Py.split sep s) -> count sep x = 0.
Proof.
  revert x. induction s as [|c r IH]; intros x; simpl.
  - now intros [<-|[]].
  - destruct (Ascii.eqb c sep) eqn:Ec.
    + intros [<-|Hin]; [reflexivity|now apply IH].
    + destruct (Py.split sep r) as [|h t] eqn:E; simpl.
      * intros [<-|[]]. simpl. now rewrite Ec.
      * intros [<-|Hin].
        -- simpl. rewrite Ec. apply IH. now left.
        -- apply IH. now right.
Qed.

Lemma last_in {A} (l : list A) d : l <> [] -> In (List.last l d) l.
Proof.
  induction l as [|a l IH]; [congruence|].
  intros _. destruct l as [|b l]; [now left|].
  right. apply IH. discriminate.
Qed.

Lemma count_replace_from c old skip s :
  count c (Py.replace_from old "" skip s) <= count c s.
Proof.
  revert skip. induction s as [|a r IH]; intros skip; [reflexivity|].
  cbn [Py.replace_from]. destruct skip as [|k].
  - destruct (String.prefix old (String a r)).
    + specialize (IH (String.length old - 1)).
      change (count c (Py.replace_from old "" (String.length old - 1) r)
              <= count c (String a r)).
      cbn [count]. lia.
    + specialize (IH 0). cbn [count]. lia.
  - specialize (IH k). cbn [count]. lia.
Qed.

Lemma endswith_app p s : Py.endswith p (s +:+ p) = true.
Proof.
  induction s as [|a r IH]; simpl.
  - change (Py.endswith p p = true).
    destruct p; cbn [Py.endswith]; now rewrite String.eqb_refl.
  - rewrite IH. apply orb_true_r.
Qed.

Lemma split_join sep l :
  l <> [] ->
  Forall (fun x => count sep x = 0) l ->
  Py.split sep (Py.join (String sep EmptyString) l) = l.
Proof.
  induction l as [|x t IH]; [congruence|].
  intros _ Hall. inversion Hall as [|? ? Hx Ht]; subst.
  destruct t as [|y t]; [now apply split_clean|].
  change (Py.join (String sep EmptyString) (x :: y :: t))
    with (x +:+ String sep (Py.join (String sep EmptyString) (y :: t))).
  rewrite split_app_sep, split_clean by exact Hx.
  rewrite IH; [reflexivity|discriminate|exact Ht].
Qed.

Lemma count_join c sep l :
  count c sep = 0 ->
  Forall (fun x => count c x = 0) l ->
  count c (Py.join sep l) = 0.
Proof.
  intros Hsep. induction l as [|x t IH]; [reflexivity|].
  intros Hall. inversion Hall as [|? ? Hx Ht]; subst.
  destruct t as [|y t]; [exact Hx|].
  change (Py.join sep (x :: y :: t)) with (x +:+ sep +:+ Py.join sep (y :: t)).
  rewrite !count_app, Hx, Hsep, IH by exact Ht. reflexivity.
Qed.

Lemma rstrip_twice drop s :
  Py.rstrip drop (Py.rstrip drop s) = Py.rstrip drop s.
Proof.
  induction s as [|a r IH]; [reflexivity|].
  simpl. destruct (Py.rstrip drop r) as [|b r'] eqn:E.
  - destruct (drop a) eqn:Ha; simpl; [reflexivity|now rewrite Ha].
  - change (Py.rstrip drop (String a (String b r')))
      with (match Py.rstrip drop (String b r') with
            | EmptyString => if drop a then EmptyString else String a EmptyString
            | x => String a x
            end).
    now rewrite IH.
Qed.

Lemma rstrip_lstrip drop s :
  Py.rstrip drop s = s -> Py.rstrip drop (Py.lstrip drop s) = Py.lstrip drop s.
Proof.
  induction s as [|a r IH]; [reflexivity|].
  intros H. simpl. destruct (drop a) eqn:Ha; [|exact H].
  apply IH. simpl in H. rewrite Ha in H.
  destruct (Py.rstrip drop r); [discriminate|now injection H].
Qed.

Lemma lstrip_twice drop s :
  Py.lstrip drop (Py.lstrip drop s) = Py.lstrip drop s.
Proof.
  induction s as [|a r IH]; [reflexivity|].
  simpl. destruct (drop a) eqn:Ha; [exact IH|].
  simpl. now rewrite Ha.
Qed.

Lemma strip_twice s : Py.strip (Py.strip s) = Py.strip s.
Proof.
  unfold Py.strip.
  rewrite rstrip_lstrip by apply rstrip_twice.
  apply lstrip_twice.
Qed.

(** ** More on [tld_from_url] *)

(** X1: The key of a URL holds no slash: it names one directory under the
    work directory. *)
Theorem tld_from_url_no_slash url : count "/" (tld_from_url url) = 0.
Proof.
  unfold tld_from_url.
  set (base := List.last _ _).
  assert (Hb : count "/" base = 0).
  { apply (split_pieces_clean "/" (Py.rstrip (Ascii.eqb "/") url)).
    apply last_in, split_not_nil. }
  destruct (Py.endswith ".zone" base); [|exact Hb].
  pose proof (count_replace_from "/" ".zone" 0 base) as Hle.
  unfold Py.replace. lia.
Qed.

(** X2: Slashes at the end of a URL do not change its key. *)
Theorem tld_from_url_trailing_slash url :
  tld_from_url (url +:+ "/") = tld_from_url url.
Proof. unfold tld_from_url. now rewrite rstrip_app_dropped. Qed.

Lemma rstrip_app_kept drop s t :
  Py.rstrip drop t <> EmptyString ->
  Py.rstrip drop (s +:+ t) = s +:+ Py.rstrip drop t.
Proof.
  intros Ht. induction s as [|a r IH]; [reflexivity|].
  change (String a r +:+ t) with (String a (r +:+ t)).
  change (String a r +:+ Py.rstrip drop t)
    with (String a (r +:+ Py.rstrip drop t)).
  cbn [Py.rstrip]. rewrite IH.
  destruct (r +:+ Py.rstrip drop t) eqn:E; [|reflexivity].
  destruct r; [contradiction|discriminate].
Qed.

(** X3: For a URL that ends in [/stem.zone], where the stem has neither a
    slash nor a dot, the key is the stem. *)
Theorem tld_from_url_plain dir stem :
  count "/" stem = 0 ->
  count "." stem = 0 ->
  tld_from_url (dir +:+ "/" +:+ stem +:+ ".zone") = stem.
Proof.
  intros Hslash Hdot. unfold tld_from_url.
  assert (Hseg : Py.rstrip (Ascii.eqb "/") (stem +:+ ".zone") = stem +:+ ".zone").
  { now rewrite rstrip_app_kept. }
  assert (Hurl : Py.rstrip (Ascii.eqb "/") (dir +:+ "/" +:+ stem +:+ ".zone")
                 = dir +:+ "/" +:+ stem +:+ ".zone").
  { rewrite rstrip_app_kept.
    - change ("/" +:+ stem +:+ ".zone") with (String "/" (stem +:+ ".zone")).
      cbn [Py.rstrip]. rewrite Hseg. now destruct stem.
    - change ("/" +:+ stem +:+ ".zone") with (String "/" (stem +:+ ".zone")).
      cbn [Py.rstrip]. rewrite Hseg. now destruct stem. }
  rewrite Hurl.
  change (dir +:+ "/" +:+ stem +:+ ".zone")
    with (dir +:+ String "/" (stem +:+ ".zone")).
  rewrite split_app_sep, (split_clean "/" (stem +:+ ".zone"))
    by (rewrite count_app, Hslash; reflexivity).
  rewrite List.last_last, endswith_app.
  now apply replace_suffix_plain.
Qed.

Lemma tld_from_url_plain_witness :
  tld_from_url ("https://czds-download-api.icann.org/czds/downloads"
                +:+ "/" +:+ "xn--p1ai" +:+ ".zone") = "xn--p1ai".
Proof.
  apply (tld_from_url_plain
           "https://czds-download-api.icann.org/czds/downloads" "xn--p1ai");
    reflexivity.
Defined.

(** ** More on [parse_line] *)

(** X4: Newlines at the end of a line do not change what it parses to. *)
Theorem parse_line_trailing_newline line :
  parse_line (line +:+ newline) = parse_line line.
Proof.
  unfold parse_line, newline. now rewrite rstrip_app_dropped.
Qed.

Lemma fields_tabbed l :
  l <> [] ->
  Forall (fun x => count Py.TAB x = 0 /\ count Py.NL x = 0) l ->
  fields (tabbed l) = l.
Proof.
  intros Hne Hall. unfold fields, tabbed, tab.
  rewrite rstrip_clean.
  - apply split_join; [exact Hne|].
    eapply Forall_impl; [exact Hall|]. now intros x [H _].
  - intros c Hc. apply Ascii.eqb_eq in Hc. subst c.
    apply count_join; [reflexivity|].
    eapply Forall_impl; [exact Hall|]. now intros x [_ H].
Qed.

Lemma startswith_first_field p f x :
  p <> Py.TAB ->
  Py.startswith (String p EmptyString) (f +:+ String Py.TAB x)
  = Py.startswith (String p EmptyString) f.
Proof.
  intros Hp. unfold Py.startswith. destruct f as [|c r]; simpl.
  - destruct (ascii_dec p Py.TAB); [contradiction|reflexivity].
  - destruct (ascii_dec p c); [|reflexivity].
    destruct r; [|reflexivity]. reflexivity.
Qed.

Lemma startswith_tabbed p f l :
  p <> Py.TAB ->
  Py.startswith (String p EmptyString) (tabbed (f :: l))
  = Py.startswith (String p EmptyString) f.
Proof.
  intros Hp. destruct l as [|y t]; [reflexivity|].
  change (tabbed (f :: y :: t)) with (f +:+ String Py.TAB (tabbed (y :: t))).
  now apply startswith_first_field.
Qed.

(** X5: Writing four or more fields without tabs or newlines, separated by
    tabs, and parsing the line gives the fields back: the first as the
    owner, the second as the TTL, the fifth and later joined again as the
    payload.  The owner must not begin with [;] or [$]. *)
Theorem parse_line_of_fields f0 f1 f2 f3 rest :
  Forall (fun x => count Py.TAB x = 0 /\ count Py.NL x = 0)
         (f0 :: f1 :: f2 :: f3 :: rest) ->
  Py.startswith ";" f0 = false ->
  Py.startswith "$" f0 = false ->
  parse_line (tabbed (f0 :: f1 :: f2 :: f3 :: rest))
  = Ok (Some {| owner := f0;
                ttl := integer_or_absent f1;
                cls := Py.or_none f2;
                rtype := Py.or_none f3;
                rdata := Py.or_none (Py.strip (tabbed rest)) |}).
Proof.
  intros Hall H1 H2.
  assert (Hf : fields (tabbed (f0 :: f1 :: f2 :: f3 :: rest))
               = f0 :: f1 :: f2 :: f3 :: rest)
    by (apply fields_tabbed; [discriminate|exact Hall]).
  rewrite parse_line_not_skipped.
  - unfold field. now rewrite Hf.
  - apply not_skipped.
    + rewrite startswith_tabbed; [exact H1|discriminate].
    + rewrite startswith_tabbed; [exact H2|discriminate].
    + rewrite Hf. simpl. lia.
Qed.

Lemma parse_line_of_fields_witness :
  parse_line (tabbed ["example.com."; "86400"; "in"; "NS"; "a.iana-servers.net."])
  = Ok (Some (ZoneRow "example.com." (Some 86400%Z) (Some "in") (Some "NS")
                      (Some "a.iana-servers.net."))).
Proof.
  apply (parse_line_of_fields "example.com." "86400" "in" "NS"
                              ["a.iana-servers.net."]).
  - repeat constructor.
  - reflexivity.
  - reflexivity.
Defined.

Lemma or_none_not_empty s : Py.or_none s <> Some EmptyString.
Proof. destruct s; discriminate. Qed.

Lemma or_none_some s x : Py.or_none s = Some x -> x = s.
Proof. unfold Py.or_none. destruct s; simpl; congruence. Qed.

Lemma field_clean i line :
  i < length (fields line) -> count Py.TAB (field i line) = 0.
Proof.
  intros Hi. apply (split_pieces_clean Py.TAB (Py.rstrip (Ascii.eqb Py.NL) line)).
  now apply nth_In.
Qed.

(** X6: A record that [parse_line] returns never holds an empty text where a
    value may be absent; its payload is trimmed; its owner, class and type
    hold no tab. *)
Theorem parse_line_row_shape line row :
  parse_line line = Ok (Some row) ->
  cls row <> Some EmptyString /\
  rtype row <> Some EmptyString /\
  rdata row <> Some EmptyString /\
  (forall text, rdata row = Some text -> Py.strip text = text) /\
  count Py.TAB (owner row) = 0 /\
  (forall text, cls row = Some text -> count Py.TAB text = 0) /\
  (forall text, rtype row = Some text -> count Py.TAB text = 0).
Proof.
  rewrite parse_line_fields. destruct (skipped line) eqn:Hs; [discriminate|].
  intros [= <-]. simpl.
  assert (H4 : 4 <= length (fields line)).
  { unfold skipped in Hs. apply orb_false_iff in Hs as [_ Hs].
    now apply Nat.ltb_ge in Hs. }
  repeat split; try apply or_none_not_empty.
  - intros text Ht. apply or_none_some in Ht. subst text. apply strip_twice.
  - apply field_clean. lia.
  - intros text Ht. apply or_none_some in Ht. subst text. apply field_clean. lia.
  - intros text Ht. apply or_none_some in Ht. subst text. apply field_clean. lia.
Qed.

Lemma parse_line_row_shape_witness :
  cls (ZoneRow "a" None None (Some "TXT") (Some "x y")) <> Some EmptyString /\
  rtype (ZoneRow "a" None None (Some "TXT") (Some "x y")) <> Some EmptyString /\
  rdata (ZoneRow "a" None None (Some "TXT") (Some "x y")) <> Some EmptyString /\
  (forall text, rdata (ZoneRow "a" None None (Some "TXT") (Some "x y")) = Some text ->
                Py.strip text = text) /\
  count Py.TAB (owner (ZoneRow "a" None None (Some "TXT") (Some "x y"))) = 0 /\
  (forall text, cls (ZoneRow "a" None None (Some "TXT") (Some "x y")) = Some text ->
                count Py.TAB text = 0) /\
  (forall text, rtype (ZoneRow "a" None None (Some "TXT") (Some "x y")) = Some text ->
                count Py.TAB text = 0).
Proof.
  apply (parse_line_row_shape (tabbed ["a"; "soon"; ""; "TXT"; " x y "])).
  reflexivity.
Defined.

(** X7: From the lines read from the file, the generator yields, in the
    order of the file, one record for each line that [parse_line] does
    not skip, made of the fields of that line, and nothing else: parsing
    adds no exception to those of reading the file. *)
Theorem stream_zone_lines_yields path :
  stream_zone_lines path
  = map (fun line => Ok (record_of_line line))
        (List.filter (fun line => negb (skipped line)) path).
Proof.
  induction path as [|line rest IH]; [reflexivity|].
  simpl. rewrite parse_line_fields.
  destruct (skipped line); simpl; now rewrite IH.
Qed.

(** ** The sizes of the bulk inserts *)

Lemma flushed_sizes tld B rows :
  (1 <= B)%Z ->
  forall batch,
    (Z.of_nat (length batch) < B)%Z ->
    Forall (fun b => length b = Z.to_nat B) (fst (flushed tld B rows batch)) /\
    length (snd (flushed tld B rows batch)) < Z.to_nat B.
Proof.
  intros HB. induction rows as [|row rest IH]; intros batch Hlt; simpl.
  - split; [constructor|lia].
  - assert (Hlen : length (batch ++ [stored tld row]) = S (length batch))
      by (rewrite length_app; simpl; lia).
    destruct (Z.leb_spec B (Z.of_nat (length (batch ++ [stored tld row]))))
      as [Hle|Hgt]; simpl.
    + destruct (IH []) as [Hall Hrest]; [simpl; lia|].
      split; [|exact Hrest].
      constructor; [|exact Hall]. rewrite Hlen in *. lia.
    + apply IH. exact Hgt.
Qed.

Lemma insert_sizes_app tr1 tr2 :
  insert_sizes (tr1 ++ tr2) = insert_sizes tr1 ++ insert_sizes tr2.
Proof. apply omap_app. Qed.

Lemma insert_sizes_map l : insert_sizes (map InsertRecords l) = map length l.
Proof.
  induction l as [|b l IH]; [reflexivity|].
  change (insert_sizes (map InsertRecords (b :: l)))
    with (length b :: insert_sizes (map InsertRecords l)).
  now rewrite IH.
Qed.

Lemma map_length_same {A} n (l : list (list A)) :
  Forall (fun b => length b = n) l ->
  map length l = replicate (length l) n /\ length (concat l) = n * length l.
Proof.
  induction l as [|b l IH]; intros Hall; [simpl; split; [reflexivity|lia]|].
  inversion Hall as [|? ? Hb Hl]; subst.
  destruct (IH Hl) as [Hmap Hcat]. simpl.
  rewrite Hmap, length_app, Hcat. split; [reflexivity|lia].
Qed.

(** X8: On a server that does not fail and for a batch size of at least 1,
    the bulk inserts of a sync carry [batch_size] rows each, but for a last
    one that carries the rows left over when there are some: their number
    is the number of rows divided by the batch size, rounded up. *)
Theorem sync_batch_sizes tld path B d :
  (1 <= B)%Z ->
  faults d = None ->
  insert_sizes (trace (snd (sync_tld_to_db tld path B d)))
  = insert_sizes (trace d)
    ++ replicate (length (stream_zone_lines path) / Z.to_nat B) (Z.to_nat B)
    ++ (if Nat.eqb (length (stream_zone_lines path) mod Z.to_nat B) 0 then []
        else [length (stream_zone_lines path) mod Z.to_nat B]).
Proof.
  intros HB Hf. rewrite sync_tld_to_db_ok, length_stream by exact Hf.
  cbn [snd]. unfold synced. cbn [trace].
  rewrite !insert_sizes_app, insert_sizes_map.
  change (insert_sizes [DeleteRecords tld; Commit]) with (@nil nat).
  change (insert_sizes [Commit; UpsertZone tld; Commit]) with (@nil nat).
  rewrite app_nil_r. cbn [app]. f_equal.
  unfold batches.
  destruct (flushed_sizes tld B (parsed_rows path) HB [])
    as [Hall Hrest]; [simpl; lia|].
  pose proof (flushed_all tld B (parsed_rows path) []) as Hcat.
  apply (f_equal (@length _)) in Hcat.
  rewrite length_app in Hcat. simpl in Hcat. rewrite length_map in Hcat.
  destruct (map_length_same _ _ Hall) as [Hmap Hlen].
  rewrite Hlen in Hcat.
  set (fl := fst (flushed tld B (parsed_rows path) [])) in *.
  set (b := snd (flushed tld B (parsed_rows path) [])) in *.
  assert (Hq : length fl = length (parsed_rows path) / Z.to_nat B).
  { apply (Nat.div_unique _ _ _ (length b)); lia. }
  assert (Hr : length b = length (parsed_rows path) mod Z.to_nat B).
  { apply (Nat.mod_unique _ _ (length fl)); lia. }
  rewrite map_app, Hmap, <- Hq, <- Hr. f_equal.
  now destruct b.
Qed.

Lemma sync_batch_sizes_witness :
  insert_sizes
    (trace (snd (sync_tld_to_db "test"
                   [tabbed ["a"; "1"; "IN"; "A"; "1.1.1.1"];
                    tabbed ["b"; "1"; "IN"; "A"; "1.1.1.2"];
                    ";comment";
                    tabbed ["c"; "1"; "IN"; "A"; "1.1.1.3"];
                    tabbed ["d"; "1"; "IN"; "A"; "1.1.1.4"];
                    tabbed ["e"; "1"; "IN"; "A"; "1.1.1.5"]] 2 (empty_db None))))
  = [2; 2; 1].
Proof.
  apply (sync_batch_sizes "test"
           [tabbed ["a"; "1"; "IN"; "A"; "1.1.1.1"];
            tabbed ["b"; "1"; "IN"; "A"; "1.1.1.2"];
            ";comment";
            tabbed ["c"; "1"; "IN"; "A"; "1.1.1.3"];
            tabbed ["d"; "1"; "IN"; "A"; "1.1.1.4"];
            tabbed ["e"; "1"; "IN"; "A"; "1.1.1.5"]] 2 (empty_db None)).
  - lia.
  - reflexivity.
Defined.

(** ** [sync_tld_to_db] on a server that may fail *)

Lemma bind_inv {A B} (m : M A) (k : A -> M B) d r d' :
  (m ≫= k) d = (r, d') ->
  (exists a d1, m d = (Ok a, d1) /\ k a d1 = (r, d')) \/
  (exists e, m d = (Raise e, d') /\ r = Raise e).
Proof.
  unfold mbind, M_bind. destruct (m d) as [[a|e] d1].
  - intros H. left. eauto.
  - intros [= <- <-]. right. eauto.
Qed.

Lemma operation_inv ev change d r d' :
  operation ev change d = (r, d') ->
  committed d' = committed d /\
  ((r = Ok tt /\ view d' = change d) \/
   (r = Raise StoreError /\ view d' = view d)).
Proof.
  unfold operation. destruct (faults d) as [[|n]|]; intros [= <- <-]; simpl; auto.
Qed.

Lemma commit_inv d r d' :
  commit d = (r, d') ->
  view d' = view d /\
  ((r = Ok tt /\ committed d' = view d) \/
   (r = Raise StoreError /\ committed d' = committed d)).
Proof.
  unfold commit.
  destruct (operation Commit view d) as [[[]|e] d1] eqn:E;
    apply operation_inv in E as [Hc [[E1 Hv]|[E1 Hv]]];
    try discriminate; intros [= <- <-]; simpl.
  - rewrite Hv. auto.
  - injection E1 as ->. rewrite Hv, Hc. auto.
Qed.

Lemma execute_delete_inv tld d r d' :
  execute_delete tld d = (r, d') ->
  committed d' = committed d /\
  ((exists n, r = Ok n /\
              view d' = Tables (without_tld tld (records (view d)))
                               (zones (view d))) \/
   (r = Raise StoreError /\ view d' = view d)).
Proof.
  unfold execute_delete.
  match goal with
  | |- context [operation ?ev ?ch d] =>
      destruct (operation ev ch d) as [[[]|e] d1] eqn:E;
      apply operation_inv in E as [Hc [[E1 Hv]|[E1 Hv]]];
      try discriminate; intros [= <- <-]
  end.
  - split; [exact Hc|]. left. eauto.
  - injection E1 as ->. auto.
Qed.

Lemma insert_rows_inv tld B rows : forall batch ins d r d',
  insert_rows tld B (map Ok rows) batch ins d = (r, d') ->
  committed d' = committed d /\
  match r with
  | Ok (b, n) =>
      exists sent,
        view d' = Tables (records (view d) ++ sent) (zones (view d)) /\
        sent ++ b = batch ++ map (stored tld) rows /\
        n = ins + length sent
  | Raise e => e = StoreError
  end.
Proof.
  induction rows as [|row rest IH]; intros batch ins d r d'; simpl.
  - intros [= <- <-]. split; [reflexivity|].
    exists []. rewrite !app_nil_r. simpl.
    split; [now destruct (view d)|]. split; [reflexivity|lia].
  - fold (stored tld row).
    destruct (B <=? Z.of_nat (length (batch ++ [stored tld row])))%Z.
    + intros H. apply bind_inv in H as [(a & d1 & E1 & H)|(e & E1 & ->)];
        apply operation_inv in E1 as [Hc [[E1 Hv]|[E1 Hv]]]; try discriminate.
      * apply IH in H as [Hc' Hr]. split; [congruence|].
        destruct r as [[b n]|e]; [|exact Hr].
        destruct Hr as (sent & Hview & Hsent & Hn).
        exists ((batch ++ [stored tld row]) ++ sent).
        rewrite Hview, Hv. simpl. rewrite <- !app_assoc.
        split; [reflexivity|]. split.
        -- simpl in Hsent. now rewrite Hsent.
        -- rewrite !length_app in *. simpl in *. lia.
      * split; [exact Hc|]. now injection E1.
    + intros H. apply IH in H as [Hc Hr]. split; [exact Hc|].
      destruct r as [[b n]|e]; [|exact Hr].
      destruct Hr as (sent & Hview & Hsent & Hn).
      exists sent. rewrite <- app_assoc in Hsent. auto.
Qed.

Lemma tables_eta t : Tables (records t) (zones t) = t.
Proof. now destruct t. Qed.

(** What a sync can have done when it ends, whatever the server did. *)
Lemma sync_tld_to_db_outcome tld path B d r d' :
  sync_tld_to_db tld path B d = (r, d') ->
  match r with
  | Ok n =>
      n = length (parsed_rows path) /\
      view d' = committed d' /\
      exists t,
        committed d'
        = Tables (without_tld tld (records (view d))
                  ++ map (stored tld) (parsed_rows path))
                 (<[tld := t]> (zones (view d)))
  | Raise e =>
      e = StoreError /\
      (committed d' = committed d \/
       committed d' = Tables (without_tld tld (records (view d))) (zones (view d)) \/
       committed d'
       = Tables (without_tld tld (records (view d))
                 ++ map (stored tld) (parsed_rows path))
                (zones (view d)))
  end.
Proof.
  unfold sync_tld_to_db. rewrite stream_zone_lines_rows. intros H.
  (* DELETE *)
  apply bind_inv in H as [(deleted & d1 & E1 & H)|(e & E1 & ->)];
    apply execute_delete_inv in E1 as [Hc1 [(n1 & E1 & Hv1)|[E1 Hv1]]];
    try discriminate;
    [|injection E1 as ->; split; [reflexivity|left; exact Hc1]].
  (* commit *)
  apply bind_inv in H as [(? & d2 & E2 & H)|(e & E2 & ->)];
    apply commit_inv in E2 as [Hv2 [[E2 Hc2]|[E2 Hc2]]];
    try discriminate;
    [|injection E2 as ->; split; [reflexivity|left; congruence]].
  (* the loop *)
  apply bind_inv in H as [([b n] & d3 & E3 & H)|(e & E3 & ->)];
    apply insert_rows_inv in E3 as [Hc3 Hr3];
    [|split; [exact Hr3|right; left; congruence]].
  destruct Hr3 as (sent & Hv3 & Hsent & Hn). simpl in Hsent.
  (* the last batch *)
  apply bind_inv in H as [(n4 & d4 & E4 & H)|(e & E4 & ->)].
  2:{ destruct b as [|row0 b]; [discriminate|].
      apply bind_inv in E4 as [(a & d4 & E4 & H)|(e' & E4 & He)];
        [discriminate|].
      apply operation_inv in E4 as [Hc4 [[E4 Hv4]|[E4 Hv4]]]; [discriminate|].
      injection He as ->. injection E4 as ->.
      split; [reflexivity|right; left; congruence]. }
  assert (H4 : committed d4 = committed d3 /\
               view d4 = Tables (without_tld tld (records (view d))
                                 ++ map (stored tld) (parsed_rows path))
                                (zones (view d)) /\
               n4 = length (parsed_rows path)).
  { destruct b as [|row0 b].
    - injection E4 as <- <-. split; [reflexivity|].
      rewrite app_nil_r in Hsent. subst sent.
      rewrite Hv3, Hv2, Hv1. simpl. split; [reflexivity|].
      rewrite Hn, length_map. reflexivity.
    - apply bind_inv in E4 as [(? & d4' & E4 & H4)|(e' & E4 & He)];
        [|discriminate].
      injection H4 as <- <-.
      apply operation_inv in E4 as [Hc4 [[_ Hv4]|[E4 _]]]; [|discriminate].
      split; [exact Hc4|].
      rewrite Hv4, Hv3, Hv2, Hv1. simpl. rewrite <- app_assoc, Hsent.
      split; [reflexivity|].
      rewrite Hn. rewrite <- (length_map (stored tld) (parsed_rows path)), <- Hsent.
      now rewrite length_app. }
  destruct H4 as (Hc4 & Hv4 & ->).
  (* commit *)
  apply bind_inv in H as [(? & d5 & E5 & H)|(e & E5 & ->)];
    apply commit_inv in E5 as [Hv5 [[E5 Hc5]|[E5 Hc5]]];
    try discriminate;
    [|injection E5 as ->; split; [reflexivity|right; left; congruence]].
  (* upsert *)
  apply bind_inv in H as [(? & d6 & E6 & H)|(e & E6 & ->)];
    apply operation_inv in E6 as [Hc6 [[E6 Hv6]|[E6 Hv6]]];
    try discriminate;
    [|injection E6 as ->; split; [reflexivity|right; right; congruence]].
  (* commit *)
  apply bind_inv in H as [(? & d7 & E7 & H)|(e & E7 & ->)];
    apply commit_inv in E7 as [Hv7 [[E7 Hc7]|[E7 Hc7]]];
    try discriminate;
    [|injection E7 as ->; split; [reflexivity|right; right; congruence]].
  injection H as <- <-.
  split; [reflexivity|]. split; [congruence|].
  exists (clock d5). rewrite Hc7, Hv6, Hv5, Hv4. reflexivity.
Qed.

Lemma records_of_without tld other l :
  other <> tld -> List.filter (has_tld other) (without_tld tld l)
                  = List.filter (has_tld other) l.
Proof.
  intros Hne. unfold without_tld.
  induction l as [|r l IH]; [reflexivity|].
  simpl. destruct (has_tld tld r) eqn:E1; simpl.
  - destruct (has_tld other r) eqn:E2; [|exact IH].
    unfold has_tld in *. apply String.eqb_eq in E1, E2. congruence.
  - destruct (has_tld other r); [now rewrite IH|exact IH].
Qed.

Lemma records_of_stored tld other rows :
  other <> tld -> List.filter (has_tld other) (map (stored tld) rows) = [].
Proof.
  intros Hne. induction rows as [|row rest IH]; [reflexivity|].
  simpl. unfold has_tld at 1. simpl.
  destruct (String.eqb_spec tld other); [congruence|exact IH].
Qed.

Lemma records_of_own_without tld l :
  List.filter (has_tld tld) (without_tld tld l) = [].
Proof. apply filter_has_tld_others. Qed.

(** X9: Whenever [sync_tld_to_db] returns, on any server, its result is the
    number of rows of the file, nothing is left uncommitted, the committed
    rows of the key are exactly the rows of the file, and the key has its
    row in [zones]. *)
Theorem sync_returns_means_synced tld path B d n d' :
  sync_tld_to_db tld path B d = (Ok n, d') ->
  n = length (stream_zone_lines path) /\
  view d' = committed d' /\
  records_of tld (committed d') = map (stored tld) (parsed_rows path) /\
  zones (committed d') !! tld <> None /\
  (forall other, other <> tld ->
     zones (committed d') !! other = zones (view d) !! other).
Proof.
  intros H. apply sync_tld_to_db_outcome in H as (-> & Hview & t & Hc).
  rewrite length_stream. split; [reflexivity|]. split; [exact Hview|].
  rewrite Hc. unfold records_of. cbn [records zones].
  split; [|split].
  - rewrite List.filter_app, records_of_own_without, filter_has_tld_stored.
    reflexivity.
  - now rewrite lookup_insert_eq.
  - intros other Hne. now rewrite lookup_insert_ne.
Qed.

Lemma sync_returns_means_synced_witness :
  1 = length (stream_zone_lines scenario_file) /\
  view (snd (sync_tld_to_db "test" scenario_file 1 (empty_db (Some 9))))
  = committed (snd (sync_tld_to_db "test" scenario_file 1 (empty_db (Some 9)))) /\
  records_of "test"
    (committed (snd (sync_tld_to_db "test" scenario_file 1 (empty_db (Some 9)))))
  = map (stored "test") (parsed_rows scenario_file) /\
  zones (committed (snd (sync_tld_to_db "test" scenario_file 1 (empty_db (Some 9)))))
    !! "test" <> None /\
  (forall other, other <> "test" ->
     zones (committed (snd (sync_tld_to_db "test" scenario_file 1
                              (empty_db (Some 9))))) !! other
     = zones (view (empty_db (Some 9))) !! other).
Proof.
  apply (sync_returns_means_synced "test" scenario_file 1 (empty_db (Some 9)) 1).
  vm_compute. reflexivity.
Defined.



(** X11: Whatever the outcome of a sync on a connection with nothing pending,
    the committed rows of every other key are as they were. *)
Theorem sync_leaves_other_keys tld other path B d r d' :
  view d = committed d ->
  other <> tld ->
  sync_tld_to_db tld path B d = (r, d') ->
  records_of other (committed d') = records_of other (committed d).
Proof.
  intros Hfresh Hne H. apply sync_tld_to_db_outcome in H.
  rewrite Hfresh in H. unfold records_of.
  destruct r as [n|e].
  - destruct H as (_ & _ & t & ->). cbn [records].
    rewrite List.filter_app, records_of_without, records_of_stored by exact Hne.
    apply app_nil_r.
  - destruct H as [_ [-> | [-> | ->]]]; cbn [records]; [reflexivity| |].
    + now apply records_of_without.
    + rewrite List.filter_app, records_of_without, records_of_stored by exact Hne.
      apply app_nil_r.
Qed.

Lemma sync_leaves_other_keys_witness :
  records_of "org"
    (committed (snd (sync_tld_to_db "test" scenario_file 1
       (Db (Tables [RecordRow "org" "x" None None None None;
                    RecordRow "test" "old" None None None None] ∅)
           (Tables [RecordRow "org" "x" None None None None;
                    RecordRow "test" "old" None None None None] ∅)
           (Some 3) 0 []))))
  = [RecordRow "org" "x" None None None None].
Proof.
  apply (sync_leaves_other_keys "test" "org" scenario_file 1
           (Db (Tables [RecordRow "org" "x" None None None None;
                        RecordRow "test" "old" None None None None] ∅)
               (Tables [RecordRow "org" "x" None None None None;
                        RecordRow "test" "old" None None None None] ∅)
               (Some 3) 0 [])
           (fst (sync_tld_to_db "test" scenario_file 1
             (Db (Tables [RecordRow "org" "x" None None None None;
                          RecordRow "test" "old" None None None None] ∅)
                 (Tables [RecordRow "org" "x" None None None None;
                          RecordRow "test" "old" None None None None] ∅)
                 (Some 3) 0 [])))).
  - reflexivity.
  - discriminate.
  - vm_compute. reflexivity.
Defined.

(** ** More on the run *)



Lemma quiet_schema : quiet (connect ≫= fun _ => try_finally ensure_schema close).
Proof.
  apply quiet_bind; [apply quiet_connect|intros _].
  apply quiet_try_finally; [apply quiet_ensure_schema|apply quiet_connect].
Qed.

(** The part of [main] before the selection, when the configuration is
    complete and the listing answers. *)
Lemma main_after_setup env account d max B urls :
  unset (DATABASE_URL env) = false ->
  Py.int (default "10" (MAX_TLDS env)) = Ok max ->
  Py.int (default "5000" (BATCH_SIZE env)) = Ok B ->
  unset (CZDS_USERNAME env) || unset (CZDS_PASSWORD env) = false ->
  get_zonefiles_list account = Ok urls ->
  main env account d =
  match urls with
  | [] => emit (Printed "No zone files approved for this account.")
  | _ :: _ =>
      match select_url_tlds (tld_whitelist env) max urls with
      | [] => emit (Printed "No TLDs to process.")
      | p :: l =>
          (connect ≫= fun _ => try_finally ensure_schema close)
          ≫= fun _ => sync_all account B (length (p :: l)) 1 (p :: l)
          ≫= fun _ => emit (Printed "Done.")
      end
  end d.
Proof.
  intros Hdb Hmax HB Hcred Hurls.
  unfold main, get_client. rewrite Hdb, Hmax, HB, Hcred.
  unfold lift. unfold mbind at 1 2 3 4, M_bind at 1 2 3 4. cbv beta iota.
  unfold mret at 1, M_ret at 1. cbv beta iota. rewrite Hurls. cbv beta iota.
  destruct urls as [|u urls']; [reflexivity|].
  destruct (select_url_tlds (tld_whitelist env) max (u :: urls')); [reflexivity|].
  unfold mbind, M_bind, connect. reflexivity.
Qed.



Lemma store_errors_only_ensure_schema : store_errors_only ensure_schema.
Proof.
  unfold ensure_schema.
  do 3 (apply store_errors_only_bind;
        [apply store_errors_only_operation|intros _]).
  apply store_errors_only_commit.
Qed.

(** X14: When a statement of [ensure_schema] fails, [main] ends there with the
    error of the store: no key is announced, downloaded or synced. *)
Theorem schema_failure_aborts_run env account d max B urls e d0 :
  unset (DATABASE_URL env) = false ->
  Py.int (default "10" (MAX_TLDS env)) = Ok max ->
  Py.int (default "5000" (BATCH_SIZE env)) = Ok B ->
  unset (CZDS_USERNAME env) || unset (CZDS_PASSWORD env) = false ->
  get_zonefiles_list account = Ok urls ->
  select_url_tlds (tld_whitelist env) max urls <> [] ->
  (connect ≫= fun _ => try_finally ensure_schema close) d = (Raise e, d0) ->
  main env account d = (Raise StoreError, d0) /\
  exit_status (fst (main env account d)) = 1%Z /\
  attempted (trace d0) = attempted (trace d).
Proof.
  intros Hdb Hmax HB Hcred Hurls Hsel Hschema.
  assert (He : e = StoreError).
  { unfold mbind, M_bind, connect, try_finally in Hschema.
    cbv beta iota in Hschema.
    match type of Hschema with
    | context [ensure_schema ?s] =>
        destruct (ensure_schema s) as [[[]|e1] d1] eqn:E
    end; [discriminate|].
    injection Hschema as <- _.
    exact (store_errors_only_ensure_schema _ _ _ E). }
  subst e.
  assert (Hmain : main env account d = (Raise StoreError, d0)).
  { rewrite (main_after_setup env account d max B urls) by assumption.
    destruct urls as [|u urls'].
    { now rewrite select_url_tlds_nil in Hsel. }
    destruct (select_url_tlds (tld_whitelist env) max (u :: urls')) as [|p l];
      [congruence|].
    erewrite bind_raise by exact Hschema. reflexivity. }
  rewrite Hmain. split; [reflexivity|]. split; [reflexivity|].
  exact (quiet_schema _ _ _ Hschema).
Qed.

Lemma schema_failure_aborts_run_witness :
  fst (main scenario_env scenario_account (empty_db (Some 1))) = Raise StoreError /\
  exit_status (fst (main scenario_env scenario_account (empty_db (Some 1)))) = 1%Z /\
  attempted
    (trace (snd ((connect ≫= fun _ => try_finally ensure_schema close)
                   (empty_db (Some 1)))))
  = attempted (trace (empty_db (Some 1))).
Proof.
  destruct (schema_failure_aborts_run scenario_env scenario_account
              (empty_db (Some 1)) 10 1 scenario_urls StoreError
              (snd ((connect ≫= fun _ => try_finally ensure_schema close)
                      (empty_db (Some 1)))))
    as [Hmain [Hstatus Hkeys]]; try (vm_compute; reflexivity).
  - vm_compute. discriminate.
  - split; [exact (f_equal fst Hmain)|]. split; [exact Hstatus|exact Hkeys].
Defined.

(** ** More on the selection *)

Lemma list_filter_sublist {A} (f : A -> bool) l : sublist (List.filter f l) l.
Proof.
  induction l as [|x l IH]; [constructor|].
  simpl. destruct (f x); now constructor.
Qed.

(** X15: Whatever the allow-list and the count, the selection is taken from
    the listing without reordering: it is a subsequence of the listed URLs,
    each with the key of its URL. *)
Theorem selection_follows_listing whitelist max urls :
  sublist (select_url_tlds whitelist max urls)
          (map (fun u => (u, tld_from_url u)) urls).
Proof.
  unfold select_url_tlds.
  destruct whitelist as [[|entry entries]|];
    try (unfold Py.slice_to; destruct (0 <=? max)%Z; apply sublist_take).
  apply list_filter_sublist.
Qed.

(** X16: When [DATABASE_URL] is not set, or the two numbers are well formed and
    a credential is not set, [main] writes one message to the error stream
    and exits with status 1; it does nothing else, whatever the account
    and the server. *)
Theorem missing_configuration_exits env account d :
  unset (DATABASE_URL env) = true \/
  (exists max B,
     Py.int (default "10" (MAX_TLDS env)) = Ok max /\
     Py.int (default "5000" (BATCH_SIZE env)) = Ok B /\
     unset (CZDS_USERNAME env) || unset (CZDS_PASSWORD env) = true) ->
  exists msg,
    main env account d
    = (Raise (SystemExit 1),
       Db (committed d) (view d) (faults d) (clock d) (trace d ++ [Stderr msg])).
Proof.
  intros [Hdb|(max & B & Hmax & HB & Hcred)]; unfold main.
  - rewrite Hdb. eexists. reflexivity.
  - destruct (unset (DATABASE_URL env)); [eexists; reflexivity|].
    unfold get_client. rewrite Hmax, HB, Hcred. eexists. reflexivity.
Qed.

Lemma missing_configuration_exits_witness :
  exists msg,
    main (Environ (Some "user") None (Some "postgresql://db/czds") None None None)
         scenario_account (empty_db None)
    = (Raise (SystemExit 1),
       Db (committed (empty_db None)) (view (empty_db None))
          (faults (empty_db None)) (clock (empty_db None))
          (trace (empty_db None) ++ [Stderr msg])).
Proof.
  apply (missing_configuration_exits
           (Environ (Some "user") None (Some "postgresql://db/czds") None None None)
           scenario_account (empty_db None)).
  right. exists 10%Z, 5000%Z. repeat split.
Defined.

(** X17: A [MAX_TLDS] or [BATCH_SIZE] that [int] rejects ends [main] with an
    uncaught [ValueError], before the credentials are looked at and with
    nothing done. *)
Theorem malformed_number_raises env account d :
  unset (DATABASE_URL env) = false ->
  (exists e, Py.int (default "10" (MAX_TLDS env)) = Raise e) \/
  (exists max e,
     Py.int (default "10" (MAX_TLDS env)) = Ok max /\
     Py.int (default "5000" (BATCH_SIZE env)) = Raise e) ->
  main env account d = (Raise ValueError, d) /\
  exit_status (fst (main env account d)) = 1%Z.
Proof.
  intros Hdb H.
  assert (Hmain : main env account d = (Raise ValueError, d)).
  { unfold main. rewrite Hdb.
    destruct H as [(e & Hmax)|(max & e & Hmax & HB)].
    - rewrite Hmax, (int_raises_ValueError _ _ Hmax). reflexivity.
    - rewrite Hmax, HB, (int_raises_ValueError _ _ HB). reflexivity. }
  now rewrite Hmain.
Qed.

Lemma malformed_number_raises_witness :
  main (Environ None None (Some "postgresql://db/czds") (Some "ten") None None)
       scenario_account (empty_db None)
  = (Raise ValueError, empty_db None) /\
  exit_status
    (fst (main (Environ None None (Some "postgresql://db/czds") (Some "ten") None None)
               scenario_account (empty_db None))) = 1%Z.
Proof.
  apply (malformed_number_raises
           (Environ None None (Some "postgresql://db/czds") (Some "ten") None None)
           scenario_account (empty_db None)).
  - reflexivity.
  - left. exists ValueError. reflexivity.
Defined.
